(** * The notification service of botpress (src/notifications.js)

    A shallow embedding of the service: JavaScript values as far as the
    service inspects them, the [notifications] table as the list of its rows
    in insertion order, the knex query builder as list functions, and the
    service's operations in a state-and-exception monad over the table, the
    logger's output and the event bus. *)

From Stdlib Require Import ZArith List String Ascii Bool Lia.
From Stdlib Require Import Sorting.Sorted Sorting.Permutation.
Import ListNotations.

Local Open Scope string_scope.
Local Open Scope list_scope.

(** ** JavaScript values *)

Module JS.

(** The values the service can be handed.  [VObj] stands for every object
    that is not a string (arrays, functions, plain objects). *)
Inductive value : Type :=
| VUndefined
| VNull
| VBool (b : bool)
| VNum (n : Z)
| VStr (s : string)
| VObj.

(** [!!v] *)
Definition truthy (v : value) : bool :=
  match v with
  | VUndefined | VNull => false
  | VBool b => b
  | VNum n => negb (n =? 0)%Z
  | VStr s => negb (s =? "")
  | VObj => true
  end.

(** [typeof v] *)
Definition typeof (v : value) : string :=
  match v with
  | VUndefined => "undefined"
  | VNull => "object"
  | VBool _ => "boolean"
  | VNum _ => "number"
  | VStr _ => "string"
  | VObj => "object"
  end.

(** [_.isString(v)] *)
Definition isString (v : value) : bool :=
  match v with VStr _ => true | _ => false end.

(** [a || b] *)
Definition or (a b : value) : value := if truthy a then a else b.

(** The characters of a value already known to be a string. *)
Definition str (v : value) : string :=
  match v with VStr s => s | _ => "" end.

Definition lower (c : ascii) : ascii :=
  let n := nat_of_ascii c in
  if (65 <=? n)%nat && (n <=? 90)%nat then ascii_of_nat (n + 32) else c.

(** [s.toLowerCase()] on the letters A-Z; the other characters stay. *)
Fixpoint toLowerCase (s : string) : string :=
  match s with
  | EmptyString => EmptyString
  | String c s' => String (lower c) (toLowerCase s')
  end.

(** [_.includes(l, s)] on an array of strings. *)
Definition includes (l : list string) (s : string) : bool :=
  existsb (String.eqb s) l.

(** [_.find(l, p)]: the first element that satisfies [p]. *)
Definition find {A : Type} (l : list A) (p : A -> bool) : option A :=
  List.find p l.

(** What a [throw] carries: the constructor and the message. *)
Inductive exn : Type :=
| Error (msg : string)
| TypeError (msg : string).

End JS.

Import JS.

(** ** The store's helpers *)

(** Modelled from the spec: the module [./database/helpers] is not among the
    sources.  The spec says that boolean representations are store specific
    and translated at the boundary, so the column type and the three
    functions of [helpers(knex).bool] are an interface; [parse] reads back
    what [true] and [false] wrote. *)
Class Helpers : Type := {
  dbbool : Type;
  dbbool_eqb : dbbool -> dbbool -> bool;
  dbbool_eqb_eq : forall x y, dbbool_eqb x y = true <-> x = y;
  bool_true : dbbool;
  bool_false : dbbool;
  bool_parse : dbbool -> bool;
  bool_parse_true : bool_parse bool_true = true;
  bool_parse_false : bool_parse bool_false = false
}.

(** A store that keeps booleans as the integers 1 and 0. *)
#[refine] Instance lite_helpers : Helpers := {
  dbbool := Z;
  dbbool_eqb := Z.eqb;
  bool_true := 1%Z;
  bool_false := 0%Z;
  bool_parse := fun z => negb (z =? 0)%Z
}.
Proof.
  - intros x y. apply Z.eqb_eq.
  - reflexivity.
  - reflexivity.
Defined.

(** A store with a native boolean column. *)
#[refine] Instance native_helpers : Helpers := {
  dbbool := bool;
  dbbool_eqb := Bool.eqb;
  bool_true := true;
  bool_false := false;
  bool_parse := fun b => b
}.
Proof.
  - intros x y. apply Bool.eqb_true_iff.
  - reflexivity.
  - reflexivity.
Defined.

(** ** Data *)

(** A registered module: [mod.root], [mod.name], [mod.settings.menuIcon] and
    [mod.settings.menuText]. *)
Module Mod.
Record t : Type := mk {
  root : string;
  name : string;
  menuIcon : string;
  menuText : string
}.
End Mod.

(** The notification object that [create] builds and [fromDatabase] returns. *)
Module Notification.
Record t : Type := mk {
  id : string;
  message : string;
  level : string;
  moduleId : string;
  icon : string;
  name : string;
  url : value;
  date : Z;
  sound : value;
  read : bool
}.
End Notification.

(** A row of the table [notifications]. *)
Module Row.
Record t {H : Helpers} : Type := mk {
  id : string;
  message : string;
  level : string;
  module_id : string;
  module_icon : string;
  module_name : string;
  redirect_url : value;
  created_on : Z;
  read : dbbool;
  archived : dbbool
}.
Arguments t {H}.
Arguments mk {H}.

Definition set_read {H : Helpers} (b : dbbool) (r : t) : t :=
  mk (id r) (message r) (level r) (module_id r) (module_icon r)
     (module_name r) (redirect_url r) (created_on r) b (archived r).

Definition set_archived {H : Helpers} (b : dbbool) (r : t) : t :=
  mk (id r) (message r) (level r) (module_id r) (module_icon r)
     (module_name r) (redirect_url r) (created_on r) (read r) b.
End Row.

(** ** The query builder *)

Module Knex.
Section Queries.
Context {H : Helpers}.

(** [.where(cond)] *)
Definition where_ (cond : Row.t -> bool) (rows : list Row.t) : list Row.t :=
  filter cond rows.

Fixpoint place (r : Row.t) (rows : list Row.t) : list Row.t :=
  match rows with
  | [] => [r]
  | r' :: rest =>
      if (Row.created_on r' <=? Row.created_on r)%Z then r :: r' :: rest
      else r' :: place r rest
  end.

(** [.orderBy('created_on', 'DESC')]: rows of equal time keep the order of
    the table. *)
Fixpoint orderBy_created_on_DESC (rows : list Row.t) : list Row.t :=
  match rows with
  | [] => []
  | r :: rest => place r (orderBy_created_on_DESC rest)
  end.

(** [.limit(n)] *)
Definition limit (n : nat) (rows : list Row.t) : list Row.t := firstn n rows.

(** [.where(cond).update(change)], and [.update(change)] with
    [cond := fun _ => true]. *)
Definition update (cond : Row.t -> bool) (change : Row.t -> Row.t)
    (rows : list Row.t) : list Row.t :=
  map (fun r => if cond r then change r else r) rows.

(** [.insert(row)] *)
Definition insert (row : Row.t) (rows : list Row.t) : list Row.t :=
  rows ++ [row].
End Queries.
End Knex.

(** ** Effects *)

(** What goes over the event bus: [notifications.new] carries one record,
    [notifications.all] carries the inbox. *)
Inductive payload : Type :=
| One (n : Notification.t)
| Many (l : list Notification.t).

(** The part of the world the service writes: the table, the lines handed to
    the logger (method name and text) and the events emitted (topic and
    payload), oldest first. *)
Record World {H : Helpers} : Type := mkWorld {
  table : list Row.t;
  logged : list (string * string);
  emitted : list (string * payload)
}.
Arguments World {H}.
Arguments mkWorld {H}.

Inductive result (A : Type) : Type :=
| Ok (a : A)
| Throw (e : exn).
Arguments Ok {A}.
Arguments Throw {A}.

(** A computation returns or throws, and leaves the world as it was when it
    did: nothing is rolled back by a throw. *)
Definition M {H : Helpers} (A : Type) : Type := World -> result A * World.

Definition ret {H : Helpers} {A : Type} (a : A) : M A := fun w => (Ok a, w).

Definition throw {H : Helpers} {A : Type} (e : exn) : M A := fun w => (Throw e, w).

Definition bind {H : Helpers} {A B : Type} (c : M A) (k : A -> M B) : M B :=
  fun w =>
    match c w with
    | (Ok a, w') => k a w'
    | (Throw e, w') => (Throw e, w')
    end.

Notation "x <- c1 ;; c2" := (bind c1 (fun x => c2))
  (at level 61, c1 at next level, right associativity).
Notation "c1 ;; c2" := (bind c1 (fun _ => c2))
  (at level 61, right associativity).

(** A statement on the table: a query reads it, an insert or update replaces
    it. *)
Definition query {H : Helpers} {A : Type} (q : list Row.t -> A) : M A :=
  fun w => (Ok (q (table w)), w).

Definition statement {H : Helpers} (f : list Row.t -> list Row.t) : M unit :=
  fun w => (Ok tt, mkWorld (f (table w)) (logged w) (emitted w)).

Definition log {H : Helpers} (method text : string) : M unit :=
  fun w => (Ok tt, mkWorld (table w) (logged w ++ [(method, text)]) (emitted w)).

Definition emit {H : Helpers} (topic : string) (p : payload) : M unit :=
  fun w => (Ok tt, mkWorld (table w) (logged w) (emitted w ++ [(topic, p)])).

(** The world a computation leaves. *)
Definition after {H : Helpers} {A : Type} (c : M A) (w : World) : World := snd (c w).

(** ** The service *)

(** The argument object of [create]; an absent key is [VUndefined]. *)
Module Args.
Record t : Type := mk {
  message : value;
  redirectUrl : value;
  level : value;
  enableSound : value
}.
End Args.

(** ** The call stack *)

(** A frame of the stack that [Error.prepareStackTrace] is handed:
    [getFileName()] answers with a name or with nothing. *)
Module CallSite.
Record t : Type := mk {
  getFileName : option string
}.
End CallSite.

(** What [Error.prepareStackTrace] holds: whatever the program had there, or
    the function of lines 200-202 that returns the frames themselves. *)
Inductive prepare : Type :=
| Installed (what : value)
| ReturnStack.

(** Lines 198-209, on the frames the engine has for [new Error()], innermost
    first (the frame of [getOriginatingModule] itself, then the frame of
    [create], then the caller's), and the hook as the function finds it.  It
    returns what it returns or throws, and the hook as it leaves it.  The text
    of the [TypeError] is the engine's. *)
Definition getOriginatingModule (hook : prepare) (frames : list CallSite.t)
    : result (option string) * prepare :=
  let origPrepareStackTrace := hook in
  let hook := ReturnStack in
  let stack := match hook with ReturnStack => frames | Installed _ => [] end in
  let hook := origPrepareStackTrace in
  let stack := tl stack in
  match nth_error stack 1 with
  | Some site => (Ok (CallSite.getFileName site), hook)
  | None => (Throw (TypeError "Cannot read property 'getFileName' of undefined"), hook)
  end.

(** What one call of [create] reads from outside: [uuid.v4()], [new Date()],
    the time the store puts into [created_on] for [helpers(knex).date.now()],
    and, for [getOriginatingModule()], what [Error.prepareStackTrace] holds
    and the frames of the call stack at line 203. *)
Module Env.
Record t : Type := mk {
  uuid : string;
  now : Z;
  created_on : Z;
  prepareStackTrace : prepare;
  frames : list CallSite.t
}.

(** Line 53, [const callingFile = getOriginatingModule()], where that call
    returns: the file name it found, [None] when the frame has none. *)
Definition callingFile (e : t) : option string :=
  match fst (getOriginatingModule (prepareStackTrace e) (frames e)) with
  | Ok file => file
  | Throw _ => None
  end.
End Env.

Module Options.
Record t : Type := mk {
  moduleId : string;
  icon : string;
  name : string;
  url : value
}.
Definition set_url (u : value) (o : t) : t := mk (moduleId o) (icon o) (name o) u.
End Options.

(** Lines 47-51: the level that [create] goes on with. *)
Definition normalizeLevel (level : value) : string :=
  if negb (truthy level)
     || negb (typeof level =? "string")
     || negb (includes ["info"; "error"; "success"] (toLowerCase (str level)))
  then "info"
  else toLowerCase (str level).

(** Line 76 reads [typeof url], and [create] binds no [url] (its parameters
    are [message], [redirectUrl], [level] and [enableSound], and the file has
    no [url] of its own): [typeof] of an unbound identifier is "undefined". *)
Definition typeof_url : string := "undefined".

Definition toDatabase {H : Helpers} (e : Env.t) (n : Notification.t) : Row.t :=
  Row.mk (Notification.id n) (Notification.message n) (Notification.level n)
         (Notification.moduleId n) (Notification.icon n) (Notification.name n)
         (Notification.url n) (Env.created_on e) bool_false bool_false.

Definition fromDatabase {H : Helpers} (row : Row.t) : Notification.t :=
  Notification.mk (Row.id row) (Row.message row) (Row.level row)
                  (Row.module_id row) (Row.module_icon row) (Row.module_name row)
                  (Row.redirect_url row) (Row.created_on row) (VBool false)
                  (bool_parse (Row.read row)).

Section Service.
(** The dependencies the service is built from, and [resolveModuleRootPath]
    of [./util], which is not among the sources: a function from a file
    name to the root directory above it, if there is one. *)
Context {H : Helpers}.
Variable modules : list Mod.t.
Variable logger : option (list string).
Variable events : bool.
Variable resolveModuleRootPath : string -> option string.

(** [callingFile && resolveModuleRootPath(callingFile)] *)
Definition callingModuleRoot (e : Env.t) : option string :=
  match Env.callingFile e with
  | None => None
  | Some f => if f =? "" then Some f else resolveModuleRootPath f
  end.

(** [mod.root === callingModuleRoot] *)
Definition same_root (e : Env.t) (mod_ : Mod.t) : bool :=
  match callingModuleRoot e with
  | Some r => Mod.root mod_ =? r
  | None => false
  end.

(** Lines 60-79. *)
Definition options (a : Args.t) (e : Env.t) : Options.t :=
  let options :=
    Options.mk "botpress" "view_module" "botpress"
      (if isString (Args.redirectUrl a) then Args.redirectUrl a else VStr "/") in
  match find modules (same_root e) with
  | Some module =>
      let options :=
        Options.mk (Mod.name module) (Mod.menuIcon module) (Mod.menuText module)
                   (Args.redirectUrl a) in
      if negb (truthy (Args.redirectUrl a)) || negb (typeof_url =? "string")
      then Options.set_url (VStr ("/modules/" ++ Mod.name module)%string) options
      else options
  | None => options
  end.

(** Lines 81-92. *)
Definition notification (a : Args.t) (e : Env.t) : Notification.t :=
  let o := options a e in
  Notification.mk (Env.uuid e) (str (Args.message a)) (normalizeLevel (Args.level a))
                  (Options.moduleId o) (Options.icon o) (Options.name o)
                  (Options.url o) (Env.now e)
                  (or (Args.enableSound a) (VBool false)) false.

(** Lines 98-102: [logger] is the list of the methods the logger has. *)
Definition write_log (n : Notification.t) : M unit :=
  match logger with
  | None => ret tt
  | Some methods =>
      let logMessage :=
        ("[notification::" ++ Notification.moduleId n ++ "] "
           ++ Notification.message n)%string in
      if includes methods (Notification.level n) then log (Notification.level n) logMessage
      else if includes methods "info" then log "info" logMessage
      else throw (TypeError "loggerLevel is not a function")
  end.

(** Lines 42-107.  After the check of the message and the level comes line
    53: when [getOriginatingModule()] throws, [create] throws with it, before
    anything is built or written; when it returns, its file name is
    [Env.callingFile e], which [notification] goes on with.  The hook it
    leaves is the hook it found, and is no part of the world. *)
Definition create (a : Args.t) (e : Env.t) : M unit :=
  if negb (truthy (Args.message a)) || negb (typeof (Args.message a) =? "string")
  then throw (Error "'message' is mandatory and should be a string")
  else
    match fst (getOriginatingModule (Env.prepareStackTrace e) (Env.frames e)) with
    | Throw error => throw error
    | Ok _ =>
        let n := notification a e in
        statement (Knex.insert (toDatabase e n)) ;;
        write_log n ;;
        if events then emit "notifications.new" (One n) else ret tt
    end.

Definition archived_rows (rows : list Row.t) : list Row.t :=
  Knex.limit 100
    (Knex.orderBy_created_on_DESC
       (Knex.where_ (fun r => dbbool_eqb (Row.archived r) bool_true) rows)).

Definition inbox_rows (rows : list Row.t) : list Row.t :=
  Knex.limit 100
    (Knex.orderBy_created_on_DESC
       (Knex.where_ (fun r => dbbool_eqb (Row.archived r) bool_false) rows)).

Definition getArchived : M (list Notification.t) :=
  query (fun rows => map fromDatabase (archived_rows rows)).

Definition getInbox : M (list Notification.t) :=
  query (fun rows => map fromDatabase (inbox_rows rows)).

Definition archive (notificationId : string) : M unit :=
  statement (Knex.update (fun r => Row.id r =? notificationId)
                         (Row.set_archived bool_true)).

Definition archiveAll : M unit :=
  statement (Knex.update (fun _ => true) (Row.set_archived bool_true)).

Definition markAsRead (notificationId : string) : M unit :=
  statement (Knex.update (fun r => Row.id r =? notificationId)
                         (Row.set_read bool_true)).

Definition markAllAsRead : M unit :=
  statement (Knex.update (fun _ => true) (Row.set_read bool_true)).

(** The legacy [send]: [create] under the old key names. *)
Definition send (message url level sound : value) (e : Env.t) : M unit :=
  create (Args.mk message url level sound) e.

(** The handlers of [_bindEvents]. *)
Definition broadcast_inbox : M unit :=
  inbox <- getInbox ;; emit "notifications.all" (Many inbox).

Definition on_getAll : M unit := broadcast_inbox.
Definition on_read (id : string) : M unit := markAsRead id ;; broadcast_inbox.
Definition on_allRead : M unit := markAllAsRead ;; broadcast_inbox.
Definition on_trashAll : M unit := archiveAll ;; broadcast_inbox.

(** One use of the service: a call of its API or an event it is bound to. *)
Inductive call : Type :=
| Create (a : Args.t) (e : Env.t)
| Send (message url level sound : value) (e : Env.t)
| GetInbox
| GetArchived
| Archive (id : string)
| ArchiveAll
| MarkAsRead (id : string)
| MarkAllAsRead
| OnGetAll
| OnRead (id : string)
| OnAllRead
| OnTrashAll.

Definition run (c : call) : M unit :=
  match c with
  | Create a e => create a e
  | Send m u l s e => send m u l s e
  | GetInbox => _ <- getInbox ;; ret tt
  | GetArchived => _ <- getArchived ;; ret tt
  | Archive id => archive id
  | ArchiveAll => archiveAll
  | MarkAsRead id => markAsRead id
  | MarkAllAsRead => markAllAsRead
  | OnGetAll => on_getAll
  | OnRead id => on_read id
  | OnAllRead => on_allRead
  | OnTrashAll => on_trashAll
  end.

(** The worlds the service passes through, one call after the other. *)
Inductive reaches : World -> World -> Prop :=
| reaches_refl w : reaches w w
| reaches_step w c w' : reaches w w' -> reaches w (after (run c) w').

(** [create] after [create], each on its own turn: a call that throws does
    not stop the ones that follow. *)
Fixpoint creates (l : list (Args.t * Env.t)) (w : World) : World :=
  match l with
  | [] => w
  | (a, e) :: l' => creates l' (after (create a e) w)
  end.

(** ** Sample inputs *)

(** A bot with one module installed, and files of the module and of the bot. *)
Definition sample_modules : list Mod.t :=
  [Mod.mk "/bot/node_modules/botpress-hello" "botpress-hello" "chat" "Hello"].

Definition sample_resolve (file : string) : option string :=
  if file =? "/bot/node_modules/botpress-hello/index.js"
  then Some "/bot/node_modules/botpress-hello"
  else None.

Definition sample_logger : option (list string) :=
  Some ["error"; "warn"; "info"; "verbose"; "debug"].

(** The stack of a call of [create] from a frame of the file [file]. *)
Definition called_from (file : option string) : list CallSite.t :=
  [CallSite.mk (Some "/bot/node_modules/botpress/lib/notifications.js");
   CallSite.mk (Some "/bot/node_modules/botpress/lib/notifications.js");
   CallSite.mk file].

Definition from_module : Env.t :=
  Env.mk "7f1c" 1000 1000 (Installed VUndefined)
         (called_from (Some "/bot/node_modules/botpress-hello/index.js")).

Definition from_bot : Env.t :=
  Env.mk "90ab" 2000 2000 (Installed VUndefined) (called_from (Some "/bot/index.js")).

(** A call with [Error.stackTraceLimit] at 2: the caller's frame is cut off. *)
Definition from_short_stack : Env.t :=
  Env.mk "c3d4" 3000 3000 (Installed VUndefined)
         [CallSite.mk (Some "/bot/node_modules/botpress/lib/notifications.js");
          CallSite.mk (Some "/bot/node_modules/botpress/lib/notifications.js")].

Definition empty_world : @World lite_helpers := mkWorld (H := lite_helpers) [] [] [].

(** A world whose one notification is read and archived. *)
Definition settled_row : @Row.t lite_helpers :=
  Row.mk (H := lite_helpers)
         "n-1" "done" "info" "botpress" "view_module" "botpress" (VStr "/") 500 1%Z 1%Z.

Definition settled_world : @World lite_helpers :=
  mkWorld (H := lite_helpers) [settled_row] [] [].

(** 150 calls of [create], the i-th at time i. *)
Definition numbered_call (i : nat) : Args.t * Env.t :=
  (Args.mk (VStr "ping") VUndefined VUndefined VUndefined,
   Env.mk (String (ascii_of_nat i) "") (Z.of_nat i) (Z.of_nat i) (Installed VUndefined)
          (called_from None)).

Definition calls_150 : list (Args.t * Env.t) := map numbered_call (seq 0 150).

(** A logger without [info] and without any method named like a level. *)
Definition bare_logger : option (list string) := Some ["warn"].

Definition hello_module : Mod.t :=
  Mod.mk "/bot/node_modules/botpress-hello" "botpress-hello" "chat" "Hello".

(** A world with the settled notification and one that waits in the inbox. *)
Definition waiting_row : @Row.t lite_helpers :=
  Row.mk (H := lite_helpers)
         "n-2" "new order" "success" "botpress" "view_module" "botpress" (VStr "/orders")
         600 0%Z 0%Z.

Definition waiting_world : @World lite_helpers :=
  mkWorld (H := lite_helpers) [settled_row; waiting_row] [] [].

Definition say_hi : Args.t := Args.mk (VStr "hi") VUndefined VUndefined VUndefined.

Definition shout_error : Args.t := Args.mk (VStr "hi") (VStr "") (VStr "ERROR") (VBool true).

(** ** Notions the statements use *)

(** [rows] run from the newest [created_on] to the oldest. *)
Definition newest_first (rows : list Row.t) : Prop :=
  StronglySorted (fun r r' => (Row.created_on r' <= Row.created_on r)%Z) rows.

(** [r'] is the row [r] some calls later: the same notification, each flag
    as it was or raised. *)
Definition raised (r r' : Row.t) : Prop :=
  Row.id r' = Row.id r /\
  (Row.read r' = Row.read r \/ Row.read r' = bool_true) /\
  (Row.archived r' = Row.archived r \/ Row.archived r' = bool_true).

(** [t'] still has every row of [t], at its place and [raised]. *)
Definition keeps (t t' : list Row.t) : Prop :=
  forall i r, nth_error t i = Some r ->
  exists r', nth_error t' i = Some r' /\ raised r r'.

(** [r'] is [r] in every column but [read]. *)
Definition same_but_read (r r' : Row.t) : Prop :=
  Row.id r' = Row.id r /\ Row.message r' = Row.message r /\
  Row.level r' = Row.level r /\ Row.module_id r' = Row.module_id r /\
  Row.module_icon r' = Row.module_icon r /\ Row.module_name r' = Row.module_name r /\
  Row.redirect_url r' = Row.redirect_url r /\ Row.created_on r' = Row.created_on r /\
  Row.archived r' = Row.archived r.

(** [page] is the first hundred of [candidates] by [created_on], newest
    first (all of them when they are fewer): no row left out is newer than a
    row of the page. *)
Definition newest_page (candidates page : list Row.t) : Prop :=
  List.length page = Nat.min 100 (List.length candidates) /\
  newest_first page /\
  exists rest,
    Permutation (page ++ rest) candidates /\
    Forall (fun old =>
              Forall (fun new => (Row.created_on old <= Row.created_on new)%Z) page)
           rest.

(** The records run from the newest [date] to the oldest. *)
Definition newest_first_records (l : list Notification.t) : Prop :=
  StronglySorted (fun n n' => (Notification.date n' <= Notification.date n)%Z) l.

(** The record [n] shows the row [row]: each field is the column it is read
    from, [read] through [parse], and [sound] is off. *)
Definition shows (row : Row.t) (n : Notification.t) : Prop :=
  Notification.id n = Row.id row /\
  Notification.message n = Row.message row /\
  Notification.level n = Row.level row /\
  Notification.moduleId n = Row.module_id row /\
  Notification.icon n = Row.module_icon row /\
  Notification.name n = Row.module_name row /\
  Notification.url n = Row.redirect_url row /\
  Notification.date n = Row.created_on row /\
  Notification.sound n = VBool false /\
  Notification.read n = bool_parse (Row.read row).

(** The records [l] show, one by one, a part of [candidates], and no
    candidate left out was created later than a record of [l]. *)
Definition newest_records (candidates : list Row.t) (l : list Notification.t) : Prop :=
  exists page rest,
    Forall2 shows page l /\
    Permutation (page ++ rest) candidates /\
    Forall (fun old =>
              Forall (fun n => (Row.created_on old <= Notification.date n)%Z) l)
           rest.

(** The record [n] once read. *)
Definition read_now (n : Notification.t) : Notification.t :=
  Notification.mk (Notification.id n) (Notification.message n) (Notification.level n)
                  (Notification.moduleId n) (Notification.icon n) (Notification.name n)
                  (Notification.url n) (Notification.date n) (Notification.sound n) true.

(** [r'] is [r] in every column but the two flags. *)
Definition same_notification (r r' : Row.t) : Prop :=
  Row.id r' = Row.id r /\ Row.message r' = Row.message r /\
  Row.level r' = Row.level r /\ Row.module_id r' = Row.module_id r /\
  Row.module_icon r' = Row.module_icon r /\ Row.module_name r' = Row.module_name r /\
  Row.redirect_url r' = Row.redirect_url r /\ Row.created_on r' = Row.created_on r.

(** [t'] still has every row of [t], at its place and the [same_notification]. *)
Definition persists (t t' : list Row.t) : Prop :=
  forall i r, nth_error t i = Some r ->
  exists r', nth_error t' i = Some r' /\ same_notification r r'.

(** The handler [h] does what [mutation] does to the table, writes no log
    line, and emits one [notifications.all] with the inbox of the table it
    leaves. *)
Definition rebroadcasts (h mutation : M unit) (w : World) : Prop :=
  fst (h w) = Ok tt /\
  table (after h w) = table (after mutation w) /\
  logged (after h w) = logged w /\
  emitted (after h w)
  = emitted w ++ [("notifications.all", Many (map fromDatabase (inbox_rows (table (after h w)))))] /\
  fst (getInbox (after h w)) = Ok (map fromDatabase (inbox_rows (table (after h w)))).

(** ** Facts about values and levels *)

Lemma truthy_string_checked (v : value) :
  negb (truthy v) || negb (typeof v =? "string") = false <->
  exists s, v = VStr s /\ s <> "".
Proof.
  split.
  - destruct v as [| | b | n | s |]; simpl; try discriminate.
    + now rewrite orb_true_r.
    + now rewrite orb_true_r.
    + destruct s as [| c s]; simpl; [discriminate |].
      intros _. exists (String c s). split; [reflexivity | discriminate].
  - intros (s & -> & Hs). destruct s as [| c s]; [now elim Hs | reflexivity].
Qed.

Lemma not_string_checked (v : value) :
  typeof v <> "string" -> negb (truthy v) || negb (typeof v =? "string") = true.
Proof.
  intros Hv. apply orb_true_iff. right.
  apply negb_true_iff, String.eqb_neq, Hv.
Qed.

Lemma includes_In (l : list string) (s : string) : includes l s = true <-> In s l.
Proof.
  unfold includes. rewrite existsb_exists. split.
  - intros (x & Hx & E). apply String.eqb_eq in E. now subst.
  - intros Hs. exists s. split; [assumption | apply String.eqb_refl].
Qed.

(** The level that [create] goes on with is one of the three of line 47. *)
Lemma normalizeLevel_range (v : value) : In (normalizeLevel v) ["info"; "error"; "success"].
Proof.
  unfold normalizeLevel.
  destruct (negb (truthy v) || negb (typeof v =? "string")); cbn [orb]; [now left |].
  destruct (includes ["info"; "error"; "success"] (toLowerCase (str v))) eqn:E;
    cbn [negb]; [| now left].
  now apply includes_In.
Qed.

(** A string that is [info], [error] or [success] up to case is lowered. *)
Lemma normalizeLevel_known (s : string) :
  In (toLowerCase s) ["info"; "error"; "success"] ->
  normalizeLevel (VStr s) = toLowerCase s.
Proof.
  intros Hs. unfold normalizeLevel.
  assert (Hne : negb (truthy (VStr s)) = false).
  { destruct s; [| reflexivity]. simpl in Hs. intuition discriminate. }
  rewrite Hne. apply includes_In in Hs. cbn [str orb]. now rewrite Hs.
Qed.

(** Everything else becomes [info]. *)
Lemma normalizeLevel_other (v : value) :
  (forall s, v = VStr s -> ~ In (toLowerCase s) ["info"; "error"; "success"]) ->
  normalizeLevel v = "info".
Proof.
  intros Hv. unfold normalizeLevel.
  destruct (negb (truthy v) || negb (typeof v =? "string")) eqn:E; [reflexivity |].
  apply truthy_string_checked in E. destruct E as (s & -> & _).
  specialize (Hv s eq_refl). cbn [str].
  destruct (includes ["info"; "error"; "success"] (toLowerCase s)) eqn:E; [| reflexivity].
  apply includes_In in E. contradiction.
Qed.

(** ** Facts about [create] *)

Lemma write_log_table (n : Notification.t) (w : World) :
  table (after (write_log n) w) = table w.
Proof.
  unfold after, write_log. destruct logger as [methods |]; [| reflexivity].
  destruct (includes methods (Notification.level n)); [reflexivity |].
  destruct (includes methods "info"); reflexivity.
Qed.

Lemma create_throws (a : Args.t) (e : Env.t) (w : World) :
  negb (truthy (Args.message a)) || negb (typeof (Args.message a) =? "string") = true ->
  create a e w = (Throw (Error "'message' is mandatory and should be a string"), w).
Proof. intros E. unfold create. now rewrite E. Qed.

(** [getOriginatingModule] returns on a stack of three frames or more, and
    throws on a shorter one. *)
Lemma originating_found (e : Env.t) :
  3 <= List.length (Env.frames e) ->
  fst (getOriginatingModule (Env.prepareStackTrace e) (Env.frames e))
  = Ok (Env.callingFile e).
Proof.
  unfold Env.callingFile. destruct (Env.frames e) as [| f0 [| f1 [| f2 rest]]]; simpl;
    intros Hlen; try lia. reflexivity.
Qed.

Lemma originating_missing (e : Env.t) :
  List.length (Env.frames e) < 3 ->
  fst (getOriginatingModule (Env.prepareStackTrace e) (Env.frames e))
  = Throw (TypeError "Cannot read property 'getFileName' of undefined").
Proof.
  destruct (Env.frames e) as [| f0 [| f1 [| f2 rest]]]; simpl; intros Hlen;
    try reflexivity. lia.
Qed.

Lemma create_stops_at_stack (a : Args.t) (e : Env.t) (w : World) :
  negb (truthy (Args.message a)) || negb (typeof (Args.message a) =? "string") = false ->
  List.length (Env.frames e) < 3 ->
  create a e w
  = (Throw (TypeError "Cannot read property 'getFileName' of undefined"), w).
Proof.
  intros E Hlen. unfold create. now rewrite E, originating_missing.
Qed.

Lemma create_inserts (a : Args.t) (e : Env.t) (w : World) :
  negb (truthy (Args.message a)) || negb (typeof (Args.message a) =? "string") = false ->
  3 <= List.length (Env.frames e) ->
  table (after (create a e) w) = table w ++ [toDatabase e (notification a e)].
Proof.
  intros E Hlen. unfold after, create. rewrite E, originating_found by exact Hlen.
  unfold bind, statement, write_log.
  destruct logger as [methods |]; simpl.
  - destruct (includes methods _); simpl; [destruct events; reflexivity |].
    destruct (includes methods "info"); simpl; [destruct events |]; reflexivity.
  - destruct events; reflexivity.
Qed.

(** The table after any [create]: as it was, or one row longer. *)
Lemma create_table (a : Args.t) (e : Env.t) (w : World) :
  table (after (create a e) w) = table w \/
  table (after (create a e) w) = table w ++ [toDatabase e (notification a e)].
Proof.
  destruct (negb (truthy (Args.message a)) || negb (typeof (Args.message a) =? "string")) eqn:E.
  - left. unfold after. now rewrite create_throws.
  - destruct (Nat.le_gt_cases 3 (List.length (Env.frames e))) as [Hlen | Hlen].
    + right. now apply create_inserts.
    + left. unfold after. now rewrite create_stops_at_stack.
Qed.

(** C1, at a documented level the code misses: [create] called with the level
    [warning], in any of the spellings [warning], [WARNING] or [Warning],
    goes on with [info], and [info] is the level of the row it stores (it
    stores one when its stack has the caller's frame). *)
Theorem create_level_warning (e : Env.t) (w : World) :
  3 <= List.length (Env.frames e) ->
  normalizeLevel (VStr "warning") = "info" /\
  normalizeLevel (VStr "WARNING") = "info" /\
  normalizeLevel (VStr "Warning") = "info" /\
  map Row.level
      (table (after (create (Args.mk (VStr "hi") VUndefined (VStr "warning") VUndefined) e) w))
  = map Row.level (table w) ++ ["info"].
Proof.
  intros Hlen. repeat split; try reflexivity.
  rewrite create_inserts by (reflexivity || exact Hlen).
  now rewrite map_app.
Qed.

(** C2, where the code departs from it: once the calling file belongs to a
    registered module, the url of the notification is that module's path,
    whatever [redirectUrl] is, a string included. *)
Theorem create_url_of_module (a : Args.t) (e : Env.t) (module : Mod.t) :
  find modules (same_root e) = Some module ->
  Notification.url (notification a e) = VStr ("/modules/" ++ Mod.name module)%string /\
  Row.redirect_url (toDatabase e (notification a e))
  = VStr ("/modules/" ++ Mod.name module)%string.
Proof.
  intros Hfound. unfold toDatabase, notification, options. cbn [Row.redirect_url Notification.url].
  rewrite Hfound.
  replace (typeof_url =? "string") with false by reflexivity.
  rewrite orb_true_r. split; reflexivity.
Qed.

(** With no module found the url is [redirectUrl] when that is a string, and
    [/] otherwise. *)
Lemma create_url_default (a : Args.t) (e : Env.t) :
  find modules (same_root e) = None ->
  Notification.url (notification a e)
  = if isString (Args.redirectUrl a) then Args.redirectUrl a else VStr "/".
Proof.
  intros Hnone. unfold notification, options. cbn [Notification.url].
  now rewrite Hnone.
Qed.

(** C3: when [message] is absent or not a string, [create] throws the error
    of line 44 and the world is as before: no row, no log line, no event. *)
Theorem create_rejects_bad_message (a : Args.t) (e : Env.t) (w : World) :
  typeof (Args.message a) <> "string" ->
  create a e w = (Throw (Error "'message' is mandatory and should be a string"), w) /\
  table (after (create a e) w) = table w /\
  logged (after (create a e) w) = logged w /\
  emitted (after (create a e) w) = emitted w.
Proof.
  intros Hm. apply not_string_checked in Hm.
  unfold after. rewrite (create_throws a e w Hm). repeat split.
Qed.

(** C4: a [create] whose [message] is a non-empty string stores a record or
    none.  When the stack that [getOriginatingModule] captures has fewer
    than three frames, it throws the [TypeError] of line 208 and the world is
    as before: nothing is stored.  Otherwise it adds one row to the table;
    the row is unread and not archived, and its level is one of info,
    success, error, warning. *)
Theorem create_stores_fresh_row (a : Args.t) (e : Env.t) (w : World) (s : string) :
  Args.message a = VStr s ->
  s <> "" ->
  (List.length (Env.frames e) < 3 /\
   create a e w
   = (Throw (TypeError "Cannot read property 'getFileName' of undefined"), w)) \/
  (3 <= List.length (Env.frames e) /\
   exists row,
     table (after (create a e) w) = table w ++ [row] /\
     Row.message row = s /\
     Row.read row = bool_false /\ bool_parse (Row.read row) = false /\
     Row.archived row = bool_false /\ bool_parse (Row.archived row) = false /\
     In (Row.level row) ["info"; "success"; "error"; "warning"]).
Proof.
  intros Hm Hs.
  assert (E : negb (truthy (Args.message a)) || negb (typeof (Args.message a) =? "string") = false).
  { apply truthy_string_checked. now exists s. }
  destruct (Nat.le_gt_cases 3 (List.length (Env.frames e))) as [Hlen | Hlen];
    [right | left; split; [exact Hlen | now apply create_stops_at_stack]].
  split; [exact Hlen |].
  exists (toDatabase e (notification a e)).
  split; [now apply create_inserts |].
  cbn [toDatabase notification Row.message Row.read Row.archived Row.level
       Notification.message Notification.level].
  rewrite Hm. repeat split; try apply bool_parse_false.
  destruct (normalizeLevel_range (Args.level a)) as [E1 | [E1 | [E1 | []]]];
    rewrite <- E1; simpl; auto.
Qed.

(** ** Facts about the queries *)

Lemma place_perm (r : Row.t) (rows : list Row.t) :
  Permutation (r :: rows) (Knex.place r rows).
Proof.
  induction rows as [| r' rest IH]; simpl; [apply Permutation_refl |].
  destruct (Row.created_on r' <=? Row.created_on r)%Z; [apply Permutation_refl |].
  eapply perm_trans; [apply perm_swap | now apply perm_skip].
Qed.

Lemma orderBy_perm (rows : list Row.t) :
  Permutation rows (Knex.orderBy_created_on_DESC rows).
Proof.
  induction rows as [| r rest IH]; simpl; [constructor |].
  eapply perm_trans; [apply perm_skip, IH | apply place_perm].
Qed.

Lemma place_newest_first (r : Row.t) (rows : list Row.t) :
  newest_first rows -> newest_first (Knex.place r rows).
Proof.
  unfold newest_first.
  induction rows as [| r' rest IH]; simpl; intros Hs.
  - constructor; constructor.
  - apply StronglySorted_inv in Hs. destruct Hs as [Hrest Hall].
    destruct (Row.created_on r' <=? Row.created_on r)%Z eqn:E.
    + apply Z.leb_le in E. constructor; [now constructor |].
      constructor; [assumption |].
      eapply Forall_impl; [| exact Hall]. cbv beta. intros x Hx. lia.
    + apply Z.leb_gt in E. constructor; [now apply IH |].
      eapply Permutation_Forall; [apply place_perm |].
      constructor; [lia | assumption].
Qed.

Lemma orderBy_newest_first (rows : list Row.t) :
  newest_first (Knex.orderBy_created_on_DESC rows).
Proof.
  induction rows as [| r rest IH]; simpl.
  - constructor.
  - now apply place_newest_first.
Qed.

Lemma limit_newest_first (n : nat) (rows : list Row.t) :
  newest_first rows -> newest_first (Knex.limit n rows).
Proof.
  unfold newest_first, Knex.limit. intros Hs. revert n.
  induction Hs as [| r rest Hrest IH Hall]; intros [| n]; simpl; try constructor.
  - apply IH.
  - rewrite <- (firstn_skipn n rest) in Hall. now apply Forall_app in Hall.
Qed.

Lemma limit_In (n : nat) (rows : list Row.t) (r : Row.t) :
  In r (Knex.limit n rows) -> In r rows.
Proof.
  unfold Knex.limit. intros Hr. rewrite <- (firstn_skipn n rows).
  apply in_or_app. now left.
Qed.

(** Whatever a query of the shape where / orderBy / limit returns, the table
    has and the condition accepts. *)
Lemma selected_In (cond : Row.t -> bool) (n : nat) (rows : list Row.t) (r : Row.t) :
  In r (Knex.limit n (Knex.orderBy_created_on_DESC (Knex.where_ cond rows))) ->
  In r rows /\ cond r = true.
Proof.
  intros Hr. apply limit_In in Hr.
  apply (Permutation_in _ (Permutation_sym (orderBy_perm _))) in Hr.
  now apply filter_In in Hr.
Qed.

(** C5: the rows that [getInbox] returns (through [fromDatabase]) are not
    archived, and the rows that [getArchived] returns are. *)
Theorem inbox_and_archive_by_flag (w : World) :
  getInbox w = (Ok (map fromDatabase (inbox_rows (table w))), w) /\
  Forall (fun r => Row.archived r = bool_false /\ bool_parse (Row.archived r) = false)
         (inbox_rows (table w)) /\
  getArchived w = (Ok (map fromDatabase (archived_rows (table w))), w) /\
  Forall (fun r => Row.archived r = bool_true /\ bool_parse (Row.archived r) = true)
         (archived_rows (table w)).
Proof.
  split; [reflexivity |]. split; [| split; [reflexivity |]].
  - apply Forall_forall. intros r Hr. apply selected_In in Hr.
    destruct Hr as [_ Hr]. apply dbbool_eqb_eq in Hr. rewrite Hr.
    split; [reflexivity | apply bool_parse_false].
  - apply Forall_forall. intros r Hr. apply selected_In in Hr.
    destruct Hr as [_ Hr]. apply dbbool_eqb_eq in Hr. rewrite Hr.
    split; [reflexivity | apply bool_parse_true].
Qed.

(** ** Facts about the flags *)

Lemma raised_refl (r : Row.t) : raised r r.
Proof. unfold raised. auto. Qed.

Lemma raised_trans (r1 r2 r3 : Row.t) : raised r1 r2 -> raised r2 r3 -> raised r1 r3.
Proof.
  unfold raised. intros (Hid & Hrd & Har) (Hid' & Hrd' & Har').
  repeat split.
  - congruence.
  - destruct Hrd' as [E | E]; [rewrite E; assumption | now right].
  - destruct Har' as [E | E]; [rewrite E; assumption | now right].
Qed.

Lemma keeps_refl (t : list Row.t) : keeps t t.
Proof. intros i r Hi. exists r. split; [assumption | apply raised_refl]. Qed.

Lemma keeps_trans (t1 t2 t3 : list Row.t) : keeps t1 t2 -> keeps t2 t3 -> keeps t1 t3.
Proof.
  intros H12 H23 i r Hi.
  destruct (H12 i r Hi) as (r2 & Hi2 & Hr2).
  destruct (H23 i r2 Hi2) as (r3 & Hi3 & Hr3).
  exists r3. split; [assumption | eapply raised_trans; eassumption].
Qed.

Lemma keeps_update (cond : Row.t -> bool) (change : Row.t -> Row.t) (t : list Row.t) :
  (forall r, raised r (change r)) -> keeps t (Knex.update cond change t).
Proof.
  intros Hch i r Hi. unfold Knex.update. rewrite nth_error_map, Hi. simpl.
  eexists. split; [reflexivity |].
  destruct (cond r); [apply Hch | apply raised_refl].
Qed.

Lemma keeps_insert (row : Row.t) (t : list Row.t) : keeps t (Knex.insert row t).
Proof.
  intros i r Hi. exists r. split; [| apply raised_refl].
  unfold Knex.insert. rewrite nth_error_app1; [assumption |].
  apply nth_error_Some. congruence.
Qed.

Lemma raised_set_read (r : Row.t) : raised r (Row.set_read bool_true r).
Proof. unfold raised. simpl. auto. Qed.

Lemma raised_set_archived (r : Row.t) : raised r (Row.set_archived bool_true r).
Proof. unfold raised. simpl. auto. Qed.

Create HintDb flags.
#[local] Hint Resolve keeps_refl keeps_update keeps_insert raised_set_read
  raised_set_archived : flags.

(** Every call keeps the rows there are. *)
Lemma run_keeps (c : call) (w : World) : keeps (table w) (table (after (run c) w)).
Proof.
  destruct c; try (cbn; auto with flags; fail).
  - cbn [run]. destruct (create_table a e w) as [E | E]; rewrite E;
      [apply keeps_refl | apply keeps_insert].
  - cbn [run]. unfold send.
    destruct (create_table (Args.mk message url level sound) e w) as [E | E];
      rewrite E; [apply keeps_refl | apply keeps_insert].
Qed.

Lemma reaches_keeps (w w' : World) : reaches w w' -> keeps (table w) (table w').
Proof.
  induction 1 as [w | w c w' Hreach IH].
  - apply keeps_refl.
  - eapply keeps_trans; [exact IH | apply run_keeps].
Qed.

(** C7: over any run of calls, a row keeps its place and its id, a [read]
    that was true is still true, and an [archived] that was true is still
    true, as stored and as [parse] reads it. *)
Theorem flags_never_reset (w w' : World) (i : nat) (r : Row.t) :
  reaches w w' ->
  nth_error (table w) i = Some r ->
  exists r',
    nth_error (table w') i = Some r' /\ Row.id r' = Row.id r /\
    (Row.read r = bool_true -> Row.read r' = bool_true) /\
    (bool_parse (Row.read r) = true -> bool_parse (Row.read r') = true) /\
    (Row.archived r = bool_true -> Row.archived r' = bool_true) /\
    (bool_parse (Row.archived r) = true -> bool_parse (Row.archived r') = true).
Proof.
  intros Hreach Hi.
  destruct (reaches_keeps w w' Hreach i r Hi) as (r' & Hi' & Hid & Hrd & Har).
  exists r'. repeat split; try assumption.
  - destruct Hrd as [E | E]; congruence.
  - destruct Hrd as [E | E]; rewrite E; [tauto | intros _; apply bool_parse_true].
  - destruct Har as [E | E]; congruence.
  - destruct Har as [E | E]; rewrite E; [tauto | intros _; apply bool_parse_true].
Qed.

(** ** Facts about single updates *)

Lemma update_twice (cond : Row.t -> bool) (change : Row.t -> Row.t) (t : list Row.t) :
  (forall r, cond r = true -> change (change r) = change r) ->
  Knex.update cond change (Knex.update cond change t) = Knex.update cond change t.
Proof.
  intros Hch. unfold Knex.update. rewrite map_map. apply map_ext. intros r.
  destruct (cond r) eqn:E; [| now rewrite E].
  destruct (cond (change r)); [now apply Hch | reflexivity].
Qed.

Lemma update_none (cond : Row.t -> bool) (change : Row.t -> Row.t) (t : list Row.t) :
  (forall r, In r t -> cond r = false) -> Knex.update cond change t = t.
Proof.
  intros Hno. unfold Knex.update. rewrite <- (map_id t) at 2.
  apply map_ext_in. intros r Hr. now rewrite (Hno r Hr).
Qed.

(** C8: [markAsRead(id)] done twice leaves the world that doing it once
    leaves; it returns, writes no log line and emits no event, and each row
    is as before in every column but [read], a row of another id in [read]
    as well, while a row of this id is read. *)
Theorem markAsRead_idempotent_and_local (id : string) (w : World) :
  after (markAsRead id) (after (markAsRead id) w) = after (markAsRead id) w /\
  fst (markAsRead id w) = Ok tt /\
  logged (after (markAsRead id) w) = logged w /\
  emitted (after (markAsRead id) w) = emitted w /\
  Forall2 (fun r r' =>
             same_but_read r r' /\
             Row.read r' = if Row.id r =? id then bool_true else Row.read r)
          (table w) (table (after (markAsRead id) w)).
Proof.
  split; [| repeat split].
  - unfold after, markAsRead, statement. cbn [snd table logged emitted]. f_equal.
    apply update_twice. intros r _. reflexivity.
  - unfold after, markAsRead, statement. cbn [snd table]. unfold Knex.update.
    induction (table w) as [| r t IH]; simpl; constructor; [| exact IH].
    destruct (Row.id r =? id); unfold same_but_read; simpl; repeat split.
Qed.

(** C9: [archive(id)] with an id that no row has returns, and leaves the
    world, the table with it, as it was. *)
Theorem archive_absent_id (id : string) (w : World) :
  ~ In id (map Row.id (table w)) ->
  archive id w = (Ok tt, w) /\ table (after (archive id) w) = table w.
Proof.
  intros Habsent.
  assert (E : archive id w = (Ok tt, w)).
  { unfold archive, statement. rewrite update_none.
    - now destruct w.
    - intros r Hr. apply String.eqb_neq. intros Hid. apply Habsent.
      rewrite <- Hid. now apply in_map. }
  split; [exact E |]. unfold after. now rewrite E.
Qed.

(** C10: the row that [create] stores reads back with [sound = false]
    whatever [enableSound] was, and so does every record that [getInbox] or
    [getArchived] returns, in any world. *)
Theorem sound_never_persisted (a : Args.t) (e : Env.t) (w : World) :
  Notification.sound (fromDatabase (toDatabase e (notification a e))) = VBool false /\
  (exists l, getInbox w = (Ok l, w) /\
             Forall (fun n => Notification.sound n = VBool false) l) /\
  (exists l, getArchived w = (Ok l, w) /\
             Forall (fun n => Notification.sound n = VBool false) l).
Proof.
  split; [reflexivity |].
  split; eexists; (split; [reflexivity |]); apply Forall_map, Forall_forall;
    intros r _; reflexivity.
Qed.

(** ** Facts about the page *)

Lemma newest_first_app (older newer : list Row.t) :
  newest_first (newer ++ older) ->
  Forall (fun old =>
            Forall (fun new => (Row.created_on old <= Row.created_on new)%Z) newer)
         older.
Proof.
  unfold newest_first. induction newer as [| r newer IH]; simpl; intros Hs.
  - apply Forall_forall. intros old _. constructor.
  - apply StronglySorted_inv in Hs. destruct Hs as [Hs Hall].
    apply Forall_app in Hall. destruct Hall as [_ Hall].
    specialize (IH Hs). rewrite Forall_forall in *.
    intros old Hold. constructor; [now apply Hall | now apply IH].
Qed.

Lemma selected_newest_page (cond : Row.t -> bool) (rows : list Row.t) :
  newest_page (Knex.where_ cond rows)
    (Knex.limit 100 (Knex.orderBy_created_on_DESC (Knex.where_ cond rows))).
Proof.
  set (candidates := Knex.where_ cond rows).
  pose proof (orderBy_perm candidates) as Hperm.
  pose proof (orderBy_newest_first candidates) as Hsorted.
  unfold newest_page, Knex.limit. repeat split.
  - rewrite length_firstn. now rewrite (Permutation_length Hperm).
  - now apply (limit_newest_first 100).
  - exists (skipn 100 (Knex.orderBy_created_on_DESC candidates)). split.
    + rewrite firstn_skipn. now apply Permutation_sym.
    + apply newest_first_app. now rewrite firstn_skipn.
Qed.

Lemma fromDatabase_newest_first (rows : list Row.t) :
  newest_first rows -> newest_first_records (map fromDatabase rows).
Proof.
  unfold newest_first, newest_first_records.
  induction 1 as [| r rest Hrest IH Hall]; simpl; constructor; [assumption |].
  apply Forall_map. exact Hall.
Qed.

Lemma fromDatabase_shows (rows : list Row.t) : Forall2 shows rows (map fromDatabase rows).
Proof.
  induction rows as [| r rest IH]; simpl; constructor; [| exact IH].
  unfold shows. simpl. repeat split.
Qed.

Lemma newest_page_records (candidates page : list Row.t) :
  newest_page candidates page -> newest_records candidates (map fromDatabase page).
Proof.
  intros (_ & _ & rest & Hperm & Hrest).
  exists page, rest. split; [apply fromDatabase_shows |]. split; [exact Hperm |].
  eapply Forall_impl; [| exact Hrest]. cbv beta. intros old Hold.
  apply Forall_map. exact Hold.
Qed.

(** Each accepted [create] adds one row that the inbox query selects. *)
Lemma creates_inbox_candidates (calls : list (Args.t * Env.t)) (w : World) :
  Forall (fun c => (exists s, Args.message (fst c) = VStr s /\ s <> "") /\
                   3 <= List.length (Env.frames (snd c))) calls ->
  List.length (Knex.where_ (fun r => dbbool_eqb (Row.archived r) bool_false)
                      (table (creates calls w)))
  = List.length (Knex.where_ (fun r => dbbool_eqb (Row.archived r) bool_false) (table w))
    + List.length calls.
Proof.
  intros Hvalid. revert w.
  induction Hvalid as [| [a e] calls [Hc Hstack] Hcalls IH]; intros w; simpl; [lia |].
  rewrite IH, create_inserts by (exact Hstack || now apply truthy_string_checked).
  unfold Knex.where_. rewrite filter_app, length_app. simpl.
  replace (dbbool_eqb bool_false bool_false) with true
    by (symmetry; now apply dbbool_eqb_eq).
  simpl. lia.
Qed.

(** C6: in any world [w] each of the two queries returns at most a hundred
    records, newest first; the records show, field by field, the rows of a
    page that is newest first by [created_on], and no row of the query's kind
    left out is newer than a row, or a record, returned.  And after 150
    calls of [create], each with a non-empty string for [message] and the
    caller's frame on its stack, from any world [w0], [getInbox] returns
    exactly a hundred records of that kind. *)
Theorem inbox_capped_newest_first (w w0 : World) (calls : list (Args.t * Env.t)) :
  List.length calls = 150 ->
  Forall (fun c => (exists s, Args.message (fst c) = VStr s /\ s <> "") /\
                   3 <= List.length (Env.frames (snd c))) calls ->
  (List.length (inbox_rows (table w)) <= 100 /\
   newest_page (Knex.where_ (fun r => dbbool_eqb (Row.archived r) bool_false) (table w))
               (inbox_rows (table w)) /\
   newest_first_records (map fromDatabase (inbox_rows (table w))) /\
   getInbox w = (Ok (map fromDatabase (inbox_rows (table w))), w) /\
   Forall2 shows (inbox_rows (table w)) (map fromDatabase (inbox_rows (table w))) /\
   newest_records (Knex.where_ (fun r => dbbool_eqb (Row.archived r) bool_false) (table w))
                  (map fromDatabase (inbox_rows (table w)))) /\
  (List.length (archived_rows (table w)) <= 100 /\
   newest_page (Knex.where_ (fun r => dbbool_eqb (Row.archived r) bool_true) (table w))
               (archived_rows (table w)) /\
   newest_first_records (map fromDatabase (archived_rows (table w))) /\
   getArchived w = (Ok (map fromDatabase (archived_rows (table w))), w) /\
   Forall2 shows (archived_rows (table w)) (map fromDatabase (archived_rows (table w))) /\
   newest_records (Knex.where_ (fun r => dbbool_eqb (Row.archived r) bool_true) (table w))
                  (map fromDatabase (archived_rows (table w)))) /\
  exists page l,
    getInbox (creates calls w0) = (Ok l, creates calls w0) /\
    l = map fromDatabase page /\
    List.length l = 100 /\
    newest_first_records l /\
    Forall2 shows page l /\
    newest_page (Knex.where_ (fun r => dbbool_eqb (Row.archived r) bool_false)
                             (table (creates calls w0)))
                page /\
    newest_records (Knex.where_ (fun r => dbbool_eqb (Row.archived r) bool_false)
                                (table (creates calls w0)))
                   l.
Proof.
  intros Hlen Hvalid.
  assert (Hpage : forall cond t,
             List.length (Knex.limit 100 (Knex.orderBy_created_on_DESC (Knex.where_ cond t))) <= 100
             /\ newest_page (Knex.where_ cond t)
                  (Knex.limit 100 (Knex.orderBy_created_on_DESC (Knex.where_ cond t)))
             /\ newest_first_records
                  (map fromDatabase
                     (Knex.limit 100 (Knex.orderBy_created_on_DESC (Knex.where_ cond t))))
             /\ newest_records (Knex.where_ cond t)
                  (map fromDatabase
                     (Knex.limit 100 (Knex.orderBy_created_on_DESC (Knex.where_ cond t))))).
  { intros cond t. pose proof (selected_newest_page cond t) as Hp.
    split; [apply firstn_le_length |]. split; [exact Hp |].
    split; [apply fromDatabase_newest_first; apply Hp | now apply newest_page_records]. }
  split; [| split].
  - destruct (Hpage (fun r => dbbool_eqb (Row.archived r) bool_false) (table w))
      as (Hle & Hp & Hrec & Hnew).
    split; [exact Hle |]. split; [exact Hp |]. split; [exact Hrec |].
    split; [reflexivity |]. split; [apply fromDatabase_shows | exact Hnew].
  - destruct (Hpage (fun r => dbbool_eqb (Row.archived r) bool_true) (table w))
      as (Hle & Hp & Hrec & Hnew).
    split; [exact Hle |]. split; [exact Hp |]. split; [exact Hrec |].
    split; [reflexivity |]. split; [apply fromDatabase_shows | exact Hnew].
  - exists (inbox_rows (table (creates calls w0))),
           (map fromDatabase (inbox_rows (table (creates calls w0)))).
    destruct (Hpage (fun r => dbbool_eqb (Row.archived r) bool_false)
                    (table (creates calls w0))) as (Hle & Hp & Hrec & Hnew).
    split; [reflexivity |]. split; [reflexivity |].
    split; [| split; [exact Hrec |
                      split; [apply fromDatabase_shows | split; [exact Hp | exact Hnew]]]].
    rewrite length_map. destruct Hp as (Hl & _). unfold inbox_rows. rewrite Hl.
    rewrite (creates_inbox_candidates calls w0 Hvalid), Hlen. lia.
Qed.

(** ** Facts about queries after updates *)

Lemma true_is_not_false : bool_true <> bool_false.
Proof.
  intros E. pose proof bool_parse_true as Ht. rewrite E, bool_parse_false in Ht.
  discriminate.
Qed.

Lemma where_map (sel : Row.t -> bool) (g : Row.t -> Row.t) (rows : list Row.t) :
  (forall r, sel (g r) = sel r) ->
  Knex.where_ sel (map g rows) = map g (Knex.where_ sel rows).
Proof.
  intros Hsel. unfold Knex.where_.
  induction rows as [| r rest IH]; simpl; [reflexivity |].
  rewrite Hsel. destruct (sel r); simpl; now rewrite IH.
Qed.

Lemma place_map (g : Row.t -> Row.t) (r : Row.t) (rows : list Row.t) :
  (forall x, Row.created_on (g x) = Row.created_on x) ->
  Knex.place (g r) (map g rows) = map g (Knex.place r rows).
Proof.
  intros Hg. induction rows as [| r' rest IH]; simpl; [reflexivity |].
  rewrite !Hg. destruct (Row.created_on r' <=? Row.created_on r)%Z; simpl;
    [reflexivity | now rewrite IH].
Qed.

Lemma orderBy_map (g : Row.t -> Row.t) (rows : list Row.t) :
  (forall x, Row.created_on (g x) = Row.created_on x) ->
  Knex.orderBy_created_on_DESC (map g rows) = map g (Knex.orderBy_created_on_DESC rows).
Proof.
  intros Hg. induction rows as [| r rest IH]; simpl; [reflexivity |].
  now rewrite IH, place_map.
Qed.

(** A change that leaves [created_on] and the selecting column alone goes
    through a query of the shape where / orderBy / limit. *)
Lemma selected_map (sel : Row.t -> bool) (g : Row.t -> Row.t) (n : nat)
    (rows : list Row.t) :
  (forall r, sel (g r) = sel r) ->
  (forall r, Row.created_on (g r) = Row.created_on r) ->
  Knex.limit n (Knex.orderBy_created_on_DESC (Knex.where_ sel (map g rows)))
  = map g (Knex.limit n (Knex.orderBy_created_on_DESC (Knex.where_ sel rows))).
Proof.
  intros Hsel Hg. unfold Knex.limit.
  now rewrite where_map, orderBy_map, firstn_map.
Qed.

Lemma where_all (sel : Row.t -> bool) (rows : list Row.t) :
  (forall r, In r rows -> sel r = true) -> Knex.where_ sel rows = rows.
Proof.
  intros Hall. unfold Knex.where_.
  induction rows as [| r rest IH]; simpl; [reflexivity |].
  rewrite (Hall r) by now left. f_equal. apply IH. intros x Hx. apply Hall. now right.
Qed.

Lemma where_none (sel : Row.t -> bool) (rows : list Row.t) :
  (forall r, In r rows -> sel r = false) -> Knex.where_ sel rows = [].
Proof.
  intros Hno. unfold Knex.where_.
  induction rows as [| r rest IH]; simpl; [reflexivity |].
  rewrite (Hno r) by now left. apply IH. intros x Hx. apply Hno. now right.
Qed.

Lemma fromDatabase_set_archived (b : dbbool) (r : Row.t) :
  fromDatabase (Row.set_archived b r) = fromDatabase r.
Proof. reflexivity. Qed.

Lemma fromDatabase_set_read (r : Row.t) :
  fromDatabase (Row.set_read bool_true r) = read_now (fromDatabase r).
Proof. unfold fromDatabase, read_now. simpl. now rewrite bool_parse_true. Qed.

(** X1: once [archiveAll] has run, [getInbox] returns no record, whatever
    the table held. *)
Theorem archiveAll_empties_inbox (w : World) :
  getInbox (after archiveAll w) = (Ok [], after archiveAll w) /\
  inbox_rows (table (after archiveAll w)) = [].
Proof.
  assert (E : inbox_rows (table (after archiveAll w)) = []).
  { unfold inbox_rows, after, archiveAll, statement, Knex.update. cbn [snd table].
    rewrite where_none; [reflexivity |].
    intros r Hr. apply in_map_iff in Hr. destruct Hr as (r0 & <- & _). simpl.
    destruct (dbbool_eqb bool_true bool_false) eqn:E; [| reflexivity].
    apply dbbool_eqb_eq in E. now apply true_is_not_false in E. }
  split; [| exact E]. unfold getInbox, query. now rewrite E.
Qed.

(** X2: once [archiveAll] has run, [getArchived] returns the first hundred
    of the whole table, newest first: as many records as the table has rows,
    up to a hundred. *)
Theorem archiveAll_fills_archive (w : World) :
  fst (getArchived (after archiveAll w))
  = Ok (map fromDatabase (Knex.limit 100 (Knex.orderBy_created_on_DESC (table w)))) /\
  List.length (archived_rows (table (after archiveAll w)))
  = Nat.min 100 (List.length (table w)).
Proof.
  assert (E : archived_rows (table (after archiveAll w))
              = map (Row.set_archived bool_true)
                    (Knex.limit 100 (Knex.orderBy_created_on_DESC (table w)))).
  { unfold archived_rows, after, archiveAll, statement, Knex.update. cbn [snd table].
    rewrite where_all.
    - unfold Knex.limit. now rewrite orderBy_map, firstn_map.
    - intros r Hr. apply in_map_iff in Hr. destruct Hr as (r0 & <- & _). simpl.
      now apply dbbool_eqb_eq. }
  split.
  - unfold getArchived, query. cbn [fst]. rewrite E, map_map. reflexivity.
  - rewrite E, length_map. unfold Knex.limit. rewrite length_firstn.
    now rewrite <- (Permutation_length (orderBy_perm (table w))).
Qed.

(** X4: [markAllAsRead] changes what the two queries return in one way only:
    the same records come back, in the same order, each one read. *)
Theorem markAllAsRead_marks_every_record (w : World) :
  fst (getInbox (after markAllAsRead w))
  = Ok (map read_now (map fromDatabase (inbox_rows (table w)))) /\
  fst (getArchived (after markAllAsRead w))
  = Ok (map read_now (map fromDatabase (archived_rows (table w)))).
Proof.
  unfold getInbox, getArchived, query, inbox_rows, archived_rows, after, markAllAsRead,
    statement, Knex.update.
  cbn [fst snd table].
  split; rewrite selected_map by reflexivity; rewrite !map_map; f_equal;
    apply map_ext; intros r; apply fromDatabase_set_read.
Qed.

(** X5: [markAsRead(id)] changes what the two queries return in one way only:
    the same records come back, in the same order, the ones of that id
    read. *)
Theorem markAsRead_marks_that_record (id : string) (w : World) :
  fst (getInbox (after (markAsRead id) w))
  = Ok (map (fun n => if Notification.id n =? id then read_now n else n)
            (map fromDatabase (inbox_rows (table w)))) /\
  fst (getArchived (after (markAsRead id) w))
  = Ok (map (fun n => if Notification.id n =? id then read_now n else n)
            (map fromDatabase (archived_rows (table w)))).
Proof.
  unfold getInbox, getArchived, query, inbox_rows, archived_rows, after, markAsRead,
    statement, Knex.update.
  cbn [fst snd table].
  split.
  - rewrite selected_map.
    + rewrite !map_map. f_equal. apply map_ext. intros r.
      cbn [fromDatabase Notification.id].
      destruct (Row.id r =? id); [apply fromDatabase_set_read | reflexivity].
    + intros r. now destruct (Row.id r =? id).
    + intros r. now destruct (Row.id r =? id).
  - rewrite selected_map.
    + rewrite !map_map. f_equal. apply map_ext. intros r.
      cbn [fromDatabase Notification.id].
      destruct (Row.id r =? id); [apply fromDatabase_set_read | reflexivity].
    + intros r. now destruct (Row.id r =? id).
    + intros r. now destruct (Row.id r =? id).
Qed.

(** ** Facts about the order of the page *)

Lemma place_newest (r : Row.t) (rows : list Row.t) :
  Forall (fun x => (Row.created_on x <= Row.created_on r)%Z) rows ->
  Knex.place r rows = r :: rows.
Proof.
  intros Hall. destruct rows as [| r' rest]; simpl; [reflexivity |].
  apply Forall_inv in Hall. apply Z.leb_le in Hall. now rewrite Hall.
Qed.

Lemma filter_place (p : Row.t -> bool) (r : Row.t) (rows : list Row.t) :
  newest_first rows ->
  filter p (Knex.place r rows)
  = if p r then Knex.place r (filter p rows) else filter p rows.
Proof.
  unfold newest_first. induction rows as [| r' rest IH]; intros Hs.
  - simpl. now destruct (p r).
  - apply StronglySorted_inv in Hs. destruct Hs as [Hrest Hall]. simpl.
    destruct (Row.created_on r' <=? Row.created_on r)%Z eqn:E.
    + simpl. destruct (p r) eqn:Hr; [| reflexivity].
      destruct (p r') eqn:Hr'.
      * simpl. now rewrite E.
      * symmetry. apply place_newest. apply Z.leb_le in E.
        apply Forall_forall. intros x Hx. apply filter_In in Hx. destruct Hx as [Hx _].
        rewrite Forall_forall in Hall. specialize (Hall x Hx). cbv beta in Hall. lia.
    + simpl. rewrite (IH Hrest). destruct (p r'), (p r); simpl; try reflexivity.
      now rewrite E.
Qed.

Lemma orderBy_filter (p : Row.t -> bool) (rows : list Row.t) :
  Knex.orderBy_created_on_DESC (filter p rows)
  = filter p (Knex.orderBy_created_on_DESC rows).
Proof.
  induction rows as [| r rest IH]; simpl; [reflexivity |].
  rewrite filter_place by apply orderBy_newest_first.
  destruct (p r); simpl; now rewrite IH.
Qed.

Lemma orderBy_app_newest (r : Row.t) (rows : list Row.t) :
  Forall (fun x => (Row.created_on x < Row.created_on r)%Z) rows ->
  Knex.orderBy_created_on_DESC (rows ++ [r]) = r :: Knex.orderBy_created_on_DESC rows.
Proof.
  induction 1 as [| x rest Hx Hrest IH]; simpl; [reflexivity |].
  rewrite IH. simpl.
  destruct (Row.created_on r <=? Row.created_on x)%Z eqn:E; [| reflexivity].
  apply Z.leb_le in E. lia.
Qed.

Lemma where_after_archive (id : string) (rows : list Row.t) :
  Knex.where_ (fun r => dbbool_eqb (Row.archived r) bool_false)
    (Knex.update (fun r => Row.id r =? id) (Row.set_archived bool_true) rows)
  = filter (fun r => negb (Row.id r =? id))
      (Knex.where_ (fun r => dbbool_eqb (Row.archived r) bool_false) rows).
Proof.
  assert (Hne : dbbool_eqb bool_true bool_false = false).
  { destruct (dbbool_eqb bool_true bool_false) eqn:E; [| reflexivity].
    apply dbbool_eqb_eq in E. now apply true_is_not_false in E. }
  unfold Knex.where_, Knex.update.
  induction rows as [| r rest IH]; simpl; [reflexivity |].
  destruct (Row.id r =? id) eqn:Hid; simpl.
  - rewrite Hne, IH. destruct (dbbool_eqb (Row.archived r) bool_false); simpl;
      [now rewrite Hid | reflexivity].
  - rewrite IH. destruct (dbbool_eqb (Row.archived r) bool_false); simpl;
      [now rewrite Hid | reflexivity].
Qed.

(** X3: after [archive(id)] the inbox is the first hundred of the rows that
    were candidates before, in their order, without the rows of that id; no
    record that [getInbox] returns has that id. *)
Theorem archive_removes_from_inbox (id : string) (w : World) :
  fst (getInbox (after (archive id) w))
  = Ok (map fromDatabase
          (Knex.limit 100
             (filter (fun r => negb (Row.id r =? id))
                (Knex.orderBy_created_on_DESC
                   (Knex.where_ (fun r => dbbool_eqb (Row.archived r) bool_false)
                                (table w)))))) /\
  Forall (fun n => Notification.id n <> id)
         (map fromDatabase (inbox_rows (table (after (archive id) w)))).
Proof.
  assert (E : inbox_rows (table (after (archive id) w))
              = Knex.limit 100
                  (filter (fun r => negb (Row.id r =? id))
                     (Knex.orderBy_created_on_DESC
                        (Knex.where_ (fun r => dbbool_eqb (Row.archived r) bool_false)
                                     (table w))))).
  { unfold inbox_rows, after, archive, statement. cbn [snd table].
    now rewrite where_after_archive, orderBy_filter. }
  split.
  - unfold getInbox, query. cbn [fst]. now rewrite E.
  - rewrite E. apply Forall_map, Forall_forall. intros r Hr.
    apply limit_In, filter_In in Hr. destruct Hr as [_ Hr].
    apply negb_true_iff, String.eqb_neq in Hr. exact Hr.
Qed.

(** X6: a [create] with a non-empty string for [message] and the caller's
    frame on its stack, stored at a time later than every row has, puts its
    record at the head of the inbox, before the first ninety-nine of the
    records that were there. *)
Theorem create_newest_heads_inbox (a : Args.t) (e : Env.t) (w : World) (s : string) :
  Args.message a = VStr s ->
  s <> "" ->
  3 <= List.length (Env.frames e) ->
  Forall (fun r => (Row.created_on r < Env.created_on e)%Z) (table w) ->
  fst (getInbox (after (create a e) w))
  = Ok (fromDatabase (toDatabase e (notification a e))
          :: firstn 99 (map fromDatabase (inbox_rows (table w)))).
Proof.
  intros Hm Hs Hstack Hnew.
  unfold getInbox, query, inbox_rows. cbn [fst].
  rewrite create_inserts by (exact Hstack || (apply truthy_string_checked; now exists s)).
  unfold Knex.where_. rewrite filter_app. simpl filter at 2.
  replace (dbbool_eqb bool_false bool_false) with true
    by (symmetry; now apply dbbool_eqb_eq).
  rewrite orderBy_app_newest.
  - unfold Knex.limit. rewrite (firstn_cons 99), map_cons. do 2 f_equal.
    rewrite (firstn_map _ 99), firstn_firstn. reflexivity.
  - apply Forall_forall. intros r Hr. apply filter_In in Hr. destruct Hr as [Hr _].
    rewrite Forall_forall in Hnew. exact (Hnew r Hr).
Qed.

(** X7: a notification written with [toDatabase] and read with
    [fromDatabase] comes back with its id, message, level, module, icon,
    name and url; its date is the store's [created_on], it is unread, and
    its sound is off. *)
Theorem fromDatabase_toDatabase (e : Env.t) (n : Notification.t) :
  fromDatabase (toDatabase e n)
  = Notification.mk (Notification.id n) (Notification.message n) (Notification.level n)
      (Notification.moduleId n) (Notification.icon n) (Notification.name n)
      (Notification.url n) (Env.created_on e) (VBool false) false.
Proof. unfold fromDatabase, toDatabase. simpl. now rewrite bool_parse_false. Qed.

(** X8: with a logger that has the method [info], a [create] with a
    non-empty string for [message] and the caller's frame on its stack
    returns; it appends one row to the table, one line to the log, under the
    method of the level when the logger has it and under [info] otherwise,
    and one [notifications.new] with the record to the events when there is
    an event bus. *)
Theorem create_row_line_event (a : Args.t) (e : Env.t) (w : World) (s : string)
    (methods : list string) :
  Args.message a = VStr s ->
  s <> "" ->
  3 <= List.length (Env.frames e) ->
  logger = Some methods ->
  includes methods "info" = true ->
  create a e w
  = (Ok tt,
     mkWorld
       (table w ++ [toDatabase e (notification a e)])
       (logged w
        ++ [(if includes methods (Notification.level (notification a e))
             then Notification.level (notification a e) else "info",
             ("[notification::" ++ Notification.moduleId (notification a e) ++ "] " ++ s)%string)])
       (emitted w
        ++ if events then [("notifications.new", One (notification a e))] else [])).
Proof.
  intros Hm Hs Hstack Hlog Hinfo.
  assert (E : negb (truthy (Args.message a)) || negb (typeof (Args.message a) =? "string") = false)
    by (apply truthy_string_checked; now exists s).
  unfold create. rewrite E, originating_found by exact Hstack.
  unfold bind, statement, write_log. rewrite Hlog.
  replace (Notification.message (notification a e)) with s
    by (cbn [notification Notification.message]; now rewrite Hm).
  destruct (includes methods (Notification.level (notification a e))); [| rewrite Hinfo];
    destruct events; cbn; rewrite ?app_nil_r; reflexivity.
Qed.

(** X9: with a logger that has neither the method of the level nor [info],
    a [create] with a non-empty string for [message] and the caller's frame
    on its stack throws a [TypeError] after the row is in the table: the row
    stays, and nothing is logged or emitted. *)
Theorem create_throws_after_insert (a : Args.t) (e : Env.t) (w : World) (s : string)
    (methods : list string) :
  Args.message a = VStr s ->
  s <> "" ->
  3 <= List.length (Env.frames e) ->
  logger = Some methods ->
  includes methods (normalizeLevel (Args.level a)) = false ->
  includes methods "info" = false ->
  create a e w
  = (Throw (TypeError "loggerLevel is not a function"),
     mkWorld (table w ++ [toDatabase e (notification a e)]) (logged w) (emitted w)).
Proof.
  intros Hm Hs Hstack Hlog Hlevel Hinfo.
  assert (E : negb (truthy (Args.message a)) || negb (typeof (Args.message a) =? "string") = false)
    by (apply truthy_string_checked; now exists s).
  unfold create. rewrite E, originating_found by exact Hstack.
  unfold bind, statement, write_log. rewrite Hlog.
  cbn [notification Notification.level]. rewrite Hlevel, Hinfo. reflexivity.
Qed.

(** ** Facts about the handlers and about updates together *)

(** X10: each handler of [_bindEvents] returns, does to the table what its
    mutation does (nothing for [notifications.getAll]), writes no log line,
    and emits one [notifications.all] that carries the inbox of the table
    as the mutation left it. *)
Theorem handlers_rebroadcast (id : string) (w : World) :
  rebroadcasts on_getAll (ret tt) w /\
  rebroadcasts (on_read id) (markAsRead id) w /\
  rebroadcasts on_allRead markAllAsRead w /\
  rebroadcasts on_trashAll archiveAll w.
Proof. repeat split. Qed.

Lemma inbox_rows_all_archived (rows : list Row.t) :
  inbox_rows (Knex.update (fun _ => true) (Row.set_archived bool_true) rows) = [].
Proof.
  unfold inbox_rows, Knex.update. rewrite where_none; [reflexivity |].
  intros r Hr. apply in_map_iff in Hr. destruct Hr as (r0 & <- & _). simpl.
  destruct (dbbool_eqb bool_true bool_false) eqn:E; [| reflexivity].
  apply dbbool_eqb_eq in E. now apply true_is_not_false in E.
Qed.

(** X11: the event [notifications.trashAll] is answered with an empty
    inbox, whatever the table held. *)
Theorem on_trashAll_broadcasts_nothing (w : World) :
  emitted (after on_trashAll w) = emitted w ++ [("notifications.all", Many [])].
Proof.
  unfold after, on_trashAll, broadcast_inbox, archiveAll, getInbox, bind, statement,
    query, emit.
  cbn [snd table logged emitted]. now rewrite inbox_rows_all_archived.
Qed.

(** X12: [archive(id)], [archiveAll] and [markAllAsRead] done twice leave
    the world that doing them once leaves. *)
Theorem updates_idempotent (id : string) (w : World) :
  after (archive id) (after (archive id) w) = after (archive id) w /\
  after archiveAll (after archiveAll w) = after archiveAll w /\
  after markAllAsRead (after markAllAsRead w) = after markAllAsRead w.
Proof.
  unfold after, archive, archiveAll, markAllAsRead, statement.
  cbn [snd table logged emitted].
  repeat split; f_equal; apply update_twice; intros r _; reflexivity.
Qed.

Lemma update_commute (cond1 cond2 : Row.t -> bool) (f1 f2 : Row.t -> Row.t)
    (rows : list Row.t) :
  (forall r, cond1 (f2 r) = cond1 r) ->
  (forall r, cond2 (f1 r) = cond2 r) ->
  (forall r, f1 (f2 r) = f2 (f1 r)) ->
  Knex.update cond1 f1 (Knex.update cond2 f2 rows)
  = Knex.update cond2 f2 (Knex.update cond1 f1 rows).
Proof.
  intros H1 H2 H12. unfold Knex.update. rewrite !map_map. apply map_ext. intros r.
  destruct (cond1 r) eqn:E1, (cond2 r) eqn:E2;
    rewrite ?H1, ?H2, ?E1, ?E2; [apply H12 | reflexivity ..].
Qed.

(** X13: reading and archiving do not depend on their order: each of
    [markAsRead(j)] and [markAllAsRead] followed by each of [archive(i)]
    and [archiveAll] leaves the world of the other order. *)
Theorem read_and_archive_commute (i j : string) (w : World) :
  after (archive i) (after (markAsRead j) w) = after (markAsRead j) (after (archive i) w) /\
  after archiveAll (after (markAsRead j) w) = after (markAsRead j) (after archiveAll w) /\
  after (archive i) (after markAllAsRead w) = after markAllAsRead (after (archive i) w) /\
  after archiveAll (after markAllAsRead w) = after markAllAsRead (after archiveAll w).
Proof.
  unfold after, archive, archiveAll, markAsRead, markAllAsRead, statement.
  cbn [snd table logged emitted].
  repeat split; f_equal; apply update_commute; intros r; reflexivity.
Qed.

(** X14: [archive(id)], [archiveAll] and [markAllAsRead] each return, write
    no log line and emit no event, and keep every row in its place with its
    columns: [archive(id)] sets [archived] on the rows of that id and leaves
    [read]; [archiveAll] sets [archived] on every row and leaves [read];
    [markAllAsRead] sets [read] on every row and leaves [archived]. *)
Theorem updates_set_one_flag (id : string) (w : World) :
  (fst (archive id w) = Ok tt /\
   logged (after (archive id) w) = logged w /\
   emitted (after (archive id) w) = emitted w /\
   Forall2 (fun r r' =>
              same_notification r r' /\ Row.read r' = Row.read r /\
              Row.archived r' = if Row.id r =? id then bool_true else Row.archived r)
           (table w) (table (after (archive id) w))) /\
  (fst (archiveAll w) = Ok tt /\
   logged (after archiveAll w) = logged w /\
   emitted (after archiveAll w) = emitted w /\
   Forall2 (fun r r' =>
              same_notification r r' /\ Row.read r' = Row.read r /\
              Row.archived r' = bool_true)
           (table w) (table (after archiveAll w))) /\
  (fst (markAllAsRead w) = Ok tt /\
   logged (after markAllAsRead w) = logged w /\
   emitted (after markAllAsRead w) = emitted w /\
   Forall2 (fun r r' =>
              same_notification r r' /\ Row.read r' = bool_true /\
              Row.archived r' = Row.archived r)
           (table w) (table (after markAllAsRead w))).
Proof.
  unfold after, archive, archiveAll, markAllAsRead, statement, Knex.update.
  cbn [fst snd table logged emitted].
  repeat split.
  - induction (table w) as [| r t IH]; simpl; constructor; [| exact IH].
    destruct (Row.id r =? id); unfold same_notification; simpl; repeat split.
  - induction (table w) as [| r t IH]; simpl; constructor; [| exact IH].
    unfold same_notification; simpl; repeat split.
  - induction (table w) as [| r t IH]; simpl; constructor; [| exact IH].
    unfold same_notification; simpl; repeat split.
Qed.

(** ** Facts about levels and attribution *)

(** X15: a [create] with a non-empty string for [message], the caller's
    frame on its stack and a level that is [info], [error] or [success] up
    to the case of its letters stores the level in lower case. *)
Theorem create_level_lowered (a : Args.t) (e : Env.t) (w : World) (s l : string) :
  Args.message a = VStr s ->
  s <> "" ->
  3 <= List.length (Env.frames e) ->
  Args.level a = VStr l ->
  In (toLowerCase l) ["info"; "error"; "success"] ->
  map Row.level (table (after (create a e) w))
  = map Row.level (table w) ++ [toLowerCase l].
Proof.
  intros Hm Hs Hstack Hl Hin.
  rewrite create_inserts by (exact Hstack || (apply truthy_string_checked; now exists s)).
  rewrite map_app. cbn [map toDatabase notification Row.level Notification.level].
  now rewrite Hl, normalizeLevel_known.
Qed.

(** X16: a [create] with a non-empty string for [message], the caller's
    frame on its stack and a level that is no string, or a string that is
    none of [info], [error] and [success] up to case, stores the level
    [info]. *)
Theorem create_level_fallback (a : Args.t) (e : Env.t) (w : World) (s : string) :
  Args.message a = VStr s ->
  s <> "" ->
  3 <= List.length (Env.frames e) ->
  (forall l, Args.level a = VStr l -> ~ In (toLowerCase l) ["info"; "error"; "success"]) ->
  map Row.level (table (after (create a e) w)) = map Row.level (table w) ++ ["info"].
Proof.
  intros Hm Hs Hstack Hl.
  rewrite create_inserts by (exact Hstack || (apply truthy_string_checked; now exists s)).
  rewrite map_app. cbn [map toDatabase notification Row.level Notification.level].
  now rewrite normalizeLevel_other.
Qed.

Lemma find_first {A : Type} (p : A -> bool) (before rest : list A) (x : A) :
  (forall y, In y before -> p y = false) ->
  p x = true ->
  find (before ++ x :: rest) p = Some x.
Proof.
  intros Hbefore Hx. unfold find.
  induction before as [| y before IH]; simpl.
  - now rewrite Hx.
  - rewrite (Hbefore y) by now left. apply IH. intros z Hz. apply Hbefore. now right.
Qed.

Lemma find_nothing {A : Type} (p : A -> bool) (l : list A) :
  (forall y, In y l -> p y = false) -> find l p = None.
Proof.
  intros Hl. unfold find. induction l as [| y l IH]; simpl; [reflexivity |].
  rewrite (Hl y) by now left. apply IH. intros z Hz. apply Hl. now right.
Qed.

(** X17: when the root found for the calling file is the root of no
    registered module (or no file or root is found at all), the notification
    is the bot's own: module id and name [botpress], icon [view_module], and
    as url the [redirectUrl] if that is a string, the empty one included,
    and [/] if not. *)
Theorem create_default_identity (a : Args.t) (e : Env.t) :
  (forall m, In m modules -> callingModuleRoot e <> Some (Mod.root m)) ->
  Notification.moduleId (notification a e) = "botpress" /\
  Notification.name (notification a e) = "botpress" /\
  Notification.icon (notification a e) = "view_module" /\
  Notification.url (notification a e)
  = match Args.redirectUrl a with VStr u => VStr u | _ => VStr "/" end.
Proof.
  intros Hnone.
  assert (E : find modules (same_root e) = None).
  { apply find_nothing. intros m Hm. unfold same_root.
    specialize (Hnone m Hm). destruct (callingModuleRoot e) as [r |]; [| reflexivity].
    apply String.eqb_neq. congruence. }
  unfold notification, options. rewrite E. cbn.
  repeat split. now destruct (Args.redirectUrl a).
Qed.

(** X18: when the root found for the calling file is the root of a
    registered module, the notification takes the name, the menu text and
    the menu icon of the first such module in the list. *)
Theorem create_module_identity (a : Args.t) (e : Env.t) (before rest : list Mod.t)
    (module : Mod.t) :
  modules = before ++ module :: rest ->
  callingModuleRoot e = Some (Mod.root module) ->
  (forall m, In m before -> Mod.root m <> Mod.root module) ->
  Notification.moduleId (notification a e) = Mod.name module /\
  Notification.name (notification a e) = Mod.menuText module /\
  Notification.icon (notification a e) = Mod.menuIcon module.
Proof.
  intros Hmods Hroot Hfirst.
  assert (E : find modules (same_root e) = Some module).
  { rewrite Hmods. apply find_first.
    - intros m Hm. unfold same_root. rewrite Hroot. apply String.eqb_neq. now apply Hfirst.
    - unfold same_root. rewrite Hroot. apply String.eqb_refl. }
  unfold notification, options. rewrite E.
  replace (typeof_url =? "string") with false by reflexivity.
  rewrite orb_true_r. repeat split.
Qed.

(** X19: [getOriginatingModule] answers with the file name of the third
    frame of the stack it captures, throws a [TypeError] when the stack has
    fewer than three frames, and in both cases leaves
    [Error.prepareStackTrace] as it found it. *)
Theorem getOriginatingModule_third_frame (hook : prepare) (frames : list CallSite.t) :
  getOriginatingModule hook frames
  = (match nth_error frames 2 with
     | Some site => Ok (CallSite.getFileName site)
     | None => Throw (TypeError "Cannot read property 'getFileName' of undefined")
     end, hook).
Proof.
  destruct frames as [| f0 [| f1 [| f2 rest]]]; reflexivity.
Qed.

(** ** Facts about what a run of calls keeps *)

Lemma same_notification_refl (r : Row.t) : same_notification r r.
Proof. unfold same_notification. repeat split. Qed.

Lemma same_notification_trans (r1 r2 r3 : Row.t) :
  same_notification r1 r2 -> same_notification r2 r3 -> same_notification r1 r3.
Proof.
  unfold same_notification.
  intros (A1 & A2 & A3 & A4 & A5 & A6 & A7 & A8) (B1 & B2 & B3 & B4 & B5 & B6 & B7 & B8).
  repeat split; congruence.
Qed.

Lemma persists_refl (t : list Row.t) : persists t t.
Proof. intros i r Hi. exists r. split; [assumption | apply same_notification_refl]. Qed.

Lemma persists_trans (t1 t2 t3 : list Row.t) :
  persists t1 t2 -> persists t2 t3 -> persists t1 t3.
Proof.
  intros H12 H23 i r Hi.
  destruct (H12 i r Hi) as (r2 & Hi2 & Hr2).
  destruct (H23 i r2 Hi2) as (r3 & Hi3 & Hr3).
  exists r3. split; [assumption | eapply same_notification_trans; eassumption].
Qed.

Lemma persists_update (cond : Row.t -> bool) (change : Row.t -> Row.t) (t : list Row.t) :
  (forall r, same_notification r (change r)) -> persists t (Knex.update cond change t).
Proof.
  intros Hch i r Hi. unfold Knex.update. rewrite nth_error_map, Hi. simpl.
  eexists. split; [reflexivity |].
  destruct (cond r); [apply Hch | apply same_notification_refl].
Qed.

Lemma persists_insert (row : Row.t) (t : list Row.t) : persists t (Knex.insert row t).
Proof.
  intros i r Hi. exists r. split; [| apply same_notification_refl].
  unfold Knex.insert. rewrite nth_error_app1; [assumption |].
  apply nth_error_Some. congruence.
Qed.

Lemma run_persists (c : call) (w : World) : persists (table w) (table (after (run c) w)).
Proof.
  assert (Hread : forall r, same_notification r (Row.set_read bool_true r))
    by (intros r; unfold same_notification; simpl; repeat split).
  assert (Harch : forall r, same_notification r (Row.set_archived bool_true r))
    by (intros r; unfold same_notification; simpl; repeat split).
  destruct c; cbn [run];
    try (apply persists_refl);
    try (apply persists_update; assumption).
  - destruct (create_table a e w) as [E | E]; rewrite E;
      [apply persists_refl | apply persists_insert].
  - unfold send.
    destruct (create_table (Args.mk message url level sound) e w) as [E | E];
      rewrite E; [apply persists_refl | apply persists_insert].
Qed.

Lemma reaches_persists (w w' : World) : reaches w w' -> persists (table w) (table w').
Proof.
  induction 1 as [w | w c w' Hreach IH].
  - apply persists_refl.
  - eapply persists_trans; [exact IH | apply run_persists].
Qed.

(** X20: over any run of calls the table loses no row and rewrites none: a
    row keeps its place, and its id, message, level, module columns, url and
    [created_on] are as they were stored. *)
Theorem rows_keep_their_content (w w' : World) (i : nat) (r : Row.t) :
  reaches w w' ->
  nth_error (table w) i = Some r ->
  List.length (table w) <= List.length (table w') /\
  exists r', nth_error (table w') i = Some r' /\ same_notification r r'.
Proof.
  intros Hreach Hi. pose proof (reaches_persists w w' Hreach) as Hp.
  split; [| exact (Hp i r Hi)].
  destruct (Nat.le_gt_cases (List.length (table w)) (List.length (table w')))
    as [Hle | Hgt]; [exact Hle |].
  assert (Hlast : nth_error (table w) (List.length (table w')) <> None)
    by now apply nth_error_Some.
  destruct (nth_error (table w) (List.length (table w'))) as [x |] eqn:Ex; [| congruence].
  destruct (Hp _ x Ex) as (x' & Hx' & _).
  assert (Hin : nth_error (table w') (List.length (table w')) <> None) by congruence.
  apply nth_error_Some in Hin. lia.
Qed.

(** X21: a notification that is archived stays out of the inbox over any
    run of calls: its row is never among the rows [getInbox] selects. *)
Theorem archived_stays_out_of_inbox (w w' : World) (i : nat) (r : Row.t) :
  reaches w w' ->
  nth_error (table w) i = Some r ->
  Row.archived r = bool_true ->
  exists r',
    nth_error (table w') i = Some r' /\ Row.id r' = Row.id r /\
    ~ In r' (inbox_rows (table w')).
Proof.
  intros Hreach Hi Harch.
  destruct (reaches_keeps w w' Hreach i r Hi) as (r' & Hi' & Hid & _ & Har).
  exists r'. split; [exact Hi' |]. split; [exact Hid |].
  intros Hin. apply selected_In in Hin. destruct Hin as [_ Hsel].
  apply dbbool_eqb_eq in Hsel.
  assert (E : Row.archived r' = bool_true) by (destruct Har; congruence).
  rewrite E in Hsel. now apply true_is_not_false in Hsel.
Qed.

Lemma create_row_id (a : Args.t) (e : Env.t) :
  Row.id (toDatabase e (notification a e)) = Env.uuid e.
Proof. reflexivity. Qed.

(** X22: [create] keeps the ids of the table distinct when [uuid.v4()]
    gives an id that no row has, and [archive], [archiveAll], [markAsRead]
    and [markAllAsRead] leave the ids as they are. *)
Theorem ids_stay_distinct (a : Args.t) (e : Env.t) (id : string) (w : World) :
  NoDup (map Row.id (table w)) ->
  ~ In (Env.uuid e) (map Row.id (table w)) ->
  NoDup (map Row.id (table (after (create a e) w))) /\
  map Row.id (table (after (archive id) w)) = map Row.id (table w) /\
  map Row.id (table (after archiveAll w)) = map Row.id (table w) /\
  map Row.id (table (after (markAsRead id) w)) = map Row.id (table w) /\
  map Row.id (table (after markAllAsRead w)) = map Row.id (table w).
Proof.
  intros Hnodup Hfresh. split.
  - destruct (create_table a e w) as [E | E]; rewrite E; [exact Hnodup |].
    rewrite map_app. apply NoDup_app; [exact Hnodup | |].
    + simpl. constructor; [intros [] | constructor].
    + intros x Hx [Hx' | []]. rewrite create_row_id in Hx'. now subst x.
  - unfold after, archive, archiveAll, markAsRead, markAllAsRead, statement, Knex.update.
    cbn [snd table].
    repeat split; rewrite map_map; apply map_ext; intros r;
      try (destruct (Row.id r =? id)); reflexivity.
Qed.

(** ** Further facts about [create] and about the two queries *)

(** X23: the empty string is no message: [create] throws the error of line
    44 for it and leaves the world as it was. *)
Theorem create_rejects_empty_message (a : Args.t) (e : Env.t) (w : World) :
  Args.message a = VStr "" ->
  create a e w = (Throw (Error "'message' is mandatory and should be a string"), w).
Proof.
  intros Hm. apply create_throws. now rewrite Hm.
Qed.

(** X24: without a logger, a [create] with a non-empty string for [message]
    and the caller's frame on its stack returns with the row stored and no
    log line written; the event is emitted when there is an event bus. *)
Theorem create_without_logger (a : Args.t) (e : Env.t) (w : World) (s : string) :
  Args.message a = VStr s ->
  s <> "" ->
  3 <= List.length (Env.frames e) ->
  logger = None ->
  create a e w
  = (Ok tt,
     mkWorld
       (table w ++ [toDatabase e (notification a e)])
       (logged w)
       (emitted w
        ++ if events then [("notifications.new", One (notification a e))] else [])).
Proof.
  intros Hm Hs Hstack Hlog.
  assert (E : negb (truthy (Args.message a)) || negb (typeof (Args.message a) =? "string") = false)
    by (apply truthy_string_checked; now exists s).
  unfold create. rewrite E, originating_found by exact Hstack.
  unfold bind, statement, write_log. rewrite Hlog.
  destruct events; cbn; rewrite ?app_nil_r; reflexivity.
Qed.

(** X26: a [create] with a non-empty string for [message] whose captured
    stack has fewer than three frames throws the [TypeError] of line 208 at
    line 53, and the world is as before: no row, no log line, no event. *)
Theorem create_needs_the_callers_frame (a : Args.t) (e : Env.t) (w : World) (s : string) :
  Args.message a = VStr s ->
  s <> "" ->
  List.length (Env.frames e) < 3 ->
  create a e w
  = (Throw (TypeError "Cannot read property 'getFileName' of undefined"), w).
Proof.
  intros Hm Hs Hstack. apply create_stops_at_stack; [| exact Hstack].
  apply truthy_string_checked. now exists s.
Qed.

Lemma run_archived_written (c : call) (w : World) :
  Forall (fun r => Row.archived r = bool_true \/ Row.archived r = bool_false) (table w) ->
  Forall (fun r => Row.archived r = bool_true \/ Row.archived r = bool_false)
         (table (after (run c) w)).
Proof.
  intros Hw.
  assert (Hupd : forall cond change,
             (forall r, Row.archived (change r) = Row.archived r
                        \/ Row.archived (change r) = bool_true) ->
             Forall (fun r => Row.archived r = bool_true \/ Row.archived r = bool_false)
                    (Knex.update cond change (table w))).
  { intros cond change Hch. unfold Knex.update. apply Forall_map.
    eapply Forall_impl; [| exact Hw]. cbv beta. intros r Hr.
    destruct (cond r); [| exact Hr].
    destruct (Hch r) as [E | E]; rewrite E; [exact Hr | now left]. }
  assert (Hins : forall a e,
             Forall (fun r => Row.archived r = bool_true \/ Row.archived r = bool_false)
                    (table (after (create a e) w))).
  { intros a e. destruct (create_table a e w) as [E | E]; rewrite E; [exact Hw |].
    apply Forall_app. split; [exact Hw |]. constructor; [now right | constructor]. }
  destruct c; cbn [run]; try exact Hw; try apply Hins;
    try (apply Hupd; intros r; simpl; auto).
Qed.

Lemma where_partition (rows : list Row.t) :
  Forall (fun r => Row.archived r = bool_true \/ Row.archived r = bool_false) rows ->
  Permutation
    (Knex.where_ (fun r => dbbool_eqb (Row.archived r) bool_false) rows
     ++ Knex.where_ (fun r => dbbool_eqb (Row.archived r) bool_true) rows)
    rows.
Proof.
  assert (Htt : dbbool_eqb bool_true bool_true = true) by now apply dbbool_eqb_eq.
  assert (Hff : dbbool_eqb bool_false bool_false = true) by now apply dbbool_eqb_eq.
  assert (Htf : dbbool_eqb bool_true bool_false = false).
  { destruct (dbbool_eqb bool_true bool_false) eqn:E; [| reflexivity].
    apply dbbool_eqb_eq in E. now apply true_is_not_false in E. }
  assert (Hft : dbbool_eqb bool_false bool_true = false).
  { destruct (dbbool_eqb bool_false bool_true) eqn:E; [| reflexivity].
    apply dbbool_eqb_eq in E. symmetry in E. now apply true_is_not_false in E. }
  unfold Knex.where_. induction 1 as [| r rest Hr Hrest IH]; simpl; [constructor |].
  destruct Hr as [E | E]; rewrite E, ?Htt, ?Hff, ?Htf, ?Hft.
  - eapply perm_trans; [apply Permutation_sym, Permutation_middle |].
    now apply perm_skip.
  - simpl. now apply perm_skip.
Qed.

(** X25: in a table that the service filled from empty, every row is a
    candidate of exactly one of the two queries: the rows [getInbox] selects
    from and the rows [getArchived] selects from make up the table. *)
Theorem queries_partition_table (w0 w : World) :
  table w0 = [] ->
  reaches w0 w ->
  Permutation
    (Knex.where_ (fun r => dbbool_eqb (Row.archived r) bool_false) (table w)
     ++ Knex.where_ (fun r => dbbool_eqb (Row.archived r) bool_true) (table w))
    (table w) /\
  List.length (Knex.where_ (fun r => dbbool_eqb (Row.archived r) bool_false) (table w))
  + List.length (Knex.where_ (fun r => dbbool_eqb (Row.archived r) bool_true) (table w))
  = List.length (table w).
Proof.
  intros Hempty Hreach.
  assert (Hw : Forall (fun r => Row.archived r = bool_true \/ Row.archived r = bool_false)
                      (table w)).
  { induction Hreach as [w0 | w0 c w Hreach IH].
    - rewrite Hempty. constructor.
    - apply run_archived_written. now apply IH. }
  pose proof (where_partition (table w) Hw) as Hp.
  split; [exact Hp |].
  rewrite <- length_app. now apply Permutation_length.
Qed.

End Service.

(** ** The statements at the sample inputs *)

(** The module's own notification, sent with the redirect [/custom], lands on
    the module's page. *)
Lemma create_url_of_module_witness :
  Notification.url
    (notification sample_modules sample_resolve
       (Args.mk (VStr "hi") (VStr "/custom") VUndefined VUndefined) from_module)
  = VStr "/modules/botpress-hello" /\
  Row.redirect_url
    (toDatabase (H := lite_helpers) from_module
       (notification sample_modules sample_resolve
          (Args.mk (VStr "hi") (VStr "/custom") VUndefined VUndefined) from_module))
  = VStr "/modules/botpress-hello".
Proof.
  exact (create_url_of_module (H := lite_helpers) sample_modules sample_resolve
           (Args.mk (VStr "hi") (VStr "/custom") VUndefined VUndefined) from_module
           (Mod.mk "/bot/node_modules/botpress-hello" "botpress-hello" "chat" "Hello")
           eq_refl).
Defined.

(** A call without [message]. *)
Lemma create_rejects_bad_message_witness :
  create sample_modules sample_logger true sample_resolve
         (Args.mk VUndefined (VStr "/x") (VStr "error") VUndefined) from_bot settled_world
  = (Throw (Error "'message' is mandatory and should be a string"), settled_world).
Proof.
  apply (create_rejects_bad_message (H := lite_helpers) sample_modules sample_logger true
           sample_resolve (Args.mk VUndefined (VStr "/x") (VStr "error") VUndefined)
           from_bot settled_world).
  simpl. discriminate.
Defined.

(** A call with the message [hi]. *)
Lemma create_stores_fresh_row_witness :
  exists row,
    table (after (create sample_modules sample_logger true sample_resolve
                    (Args.mk (VStr "hi") VUndefined (VStr "ERROR") (VBool true)) from_bot)
                 settled_world)
    = table settled_world ++ [row] /\
    Row.message row = "hi" /\
    Row.read row = 0%Z /\ bool_parse (Row.read row) = false /\
    Row.archived row = 0%Z /\ bool_parse (Row.archived row) = false /\
    In (Row.level row) ["info"; "success"; "error"; "warning"].
Proof.
  destruct (create_stores_fresh_row (H := lite_helpers) sample_modules sample_logger true
              sample_resolve (Args.mk (VStr "hi") VUndefined (VStr "ERROR") (VBool true))
              from_bot settled_world "hi") as [[Hshort _] | [_ Hrow]].
  - reflexivity.
  - discriminate.
  - simpl in Hshort. lia.
  - exact Hrow.
Defined.

(** A call from the bot's own file with the level [warning]. *)
Lemma create_level_warning_witness :
  map Row.level
      (table (after (create sample_modules sample_logger true sample_resolve
                            (Args.mk (VStr "hi") VUndefined (VStr "warning") VUndefined)
                            from_bot)
                    settled_world))
  = ["info"; "info"].
Proof.
  apply (create_level_warning (H := lite_helpers) sample_modules sample_logger true
           sample_resolve from_bot settled_world).
  simpl. lia.
Defined.

(** The 150 numbered calls on the empty table. *)
Lemma inbox_capped_newest_first_witness :
  List.length calls_150 = 150 /\
  exists page l,
    getInbox (creates sample_modules sample_logger true sample_resolve calls_150 empty_world)
    = (Ok l, creates sample_modules sample_logger true sample_resolve calls_150 empty_world) /\
    l = map fromDatabase page /\
    List.length l = 100 /\
    newest_first_records l /\
    Forall2 shows page l /\
    newest_page
      (Knex.where_ (fun r => dbbool_eqb (Row.archived r) bool_false)
         (table (creates sample_modules sample_logger true sample_resolve calls_150
                   empty_world)))
      page /\
    newest_records
      (Knex.where_ (fun r => dbbool_eqb (Row.archived r) bool_false)
         (table (creates sample_modules sample_logger true sample_resolve calls_150
                   empty_world)))
      l.
Proof.
  split; [reflexivity |].
  apply (inbox_capped_newest_first (H := lite_helpers) sample_modules sample_logger true
           sample_resolve empty_world empty_world calls_150).
  - reflexivity.
  - apply Forall_forall. intros c Hc. apply in_map_iff in Hc.
    destruct Hc as (i & <- & _). split; [| simpl; lia].
    exists "ping". split; [reflexivity | discriminate].
Defined.

(** The same run, computed: the inbox is the calls 149 down to 50. *)
Example inbox_of_calls_150 :
  map Notification.date
      (match getInbox (creates sample_modules sample_logger true sample_resolve
                         calls_150 empty_world) with
       | (Ok l, _) => l
       | (Throw _, _) => []
       end)
  = map Z.of_nat (rev (seq 50 100)).
Proof. vm_compute. reflexivity. Qed.

(** The settled notification through a [create], a [markAllAsRead] and an
    [archiveAll]. *)
Lemma flags_never_reset_witness :
  exists r',
    nth_error
      (table
         (after (run sample_modules sample_logger true sample_resolve ArchiveAll)
            (after (run sample_modules sample_logger true sample_resolve MarkAllAsRead)
               (after (run sample_modules sample_logger true sample_resolve
                         (Create (Args.mk (VStr "hi") VUndefined VUndefined VUndefined)
                                 from_bot))
                      settled_world))))
      0
    = Some r' /\
    Row.id r' = "n-1" /\
    (Row.read settled_row = 1%Z -> Row.read r' = 1%Z) /\
    (bool_parse (Row.read settled_row) = true -> bool_parse (Row.read r') = true) /\
    (Row.archived settled_row = 1%Z -> Row.archived r' = 1%Z) /\
    (bool_parse (Row.archived settled_row) = true -> bool_parse (Row.archived r') = true).
Proof.
  apply (flags_never_reset (H := lite_helpers) sample_modules sample_logger true
           sample_resolve settled_world _ 0 settled_row).
  - apply reaches_step, reaches_step, reaches_step, reaches_refl.
  - reflexivity.
Defined.

(** An id that the settled world does not have. *)
Lemma archive_absent_id_witness :
  archive (H := lite_helpers) "n-2" settled_world = (Ok tt, settled_world) /\
  table (after (archive "n-2") settled_world) = table settled_world.
Proof.
  apply (archive_absent_id (H := lite_helpers) "n-2" settled_world).
  simpl. intros [E | []]. discriminate E.
Defined.

(** [hi] created at time 2000 in the world where one notification waits. *)
Lemma create_newest_heads_inbox_witness :
  fst (getInbox (after (create sample_modules sample_logger true sample_resolve say_hi from_bot)
                       waiting_world))
  = Ok (fromDatabase (toDatabase from_bot (notification sample_modules sample_resolve say_hi from_bot))
          :: firstn 99 (map fromDatabase (inbox_rows (table waiting_world)))).
Proof.
  apply (create_newest_heads_inbox (H := lite_helpers) sample_modules sample_logger true
           sample_resolve say_hi from_bot waiting_world "hi").
  - reflexivity.
  - discriminate.
  - simpl. lia.
  - constructor; [simpl; lia |]. constructor; [simpl; lia | constructor].
Defined.

(** An error-level notification with the sample logger, which has [error]. *)
Lemma create_row_line_event_witness :
  create sample_modules sample_logger true sample_resolve shout_error from_bot empty_world
  = (Ok tt,
     mkWorld (H := lite_helpers)
       [Row.mk (H := lite_helpers) "90ab" "hi" "error" "botpress" "view_module" "botpress"
               (VStr "") 2000 0%Z 0%Z]
       [("error", "[notification::botpress] hi")]
       [("notifications.new",
         One (Notification.mk "90ab" "hi" "error" "botpress" "view_module" "botpress"
                              (VStr "") 2000 (VBool true) false))]).
Proof.
  exact (create_row_line_event (H := lite_helpers) sample_modules sample_logger true
           sample_resolve shout_error from_bot empty_world "hi"
           ["error"; "warn"; "info"; "verbose"; "debug"]
           eq_refl (fun E => match E with end) (le_n 3) eq_refl eq_refl).
Defined.

(** The same call with a logger that has only [warn]. *)
Lemma create_throws_after_insert_witness :
  create sample_modules bare_logger true sample_resolve shout_error from_bot empty_world
  = (Throw (TypeError "loggerLevel is not a function"),
     mkWorld (H := lite_helpers)
       [Row.mk (H := lite_helpers) "90ab" "hi" "error" "botpress" "view_module" "botpress"
               (VStr "") 2000 0%Z 0%Z]
       [] []).
Proof.
  apply (create_throws_after_insert (H := lite_helpers) sample_modules bare_logger true
           sample_resolve shout_error from_bot empty_world "hi" ["warn"]).
  - reflexivity.
  - discriminate.
  - simpl. lia.
  - reflexivity.
  - reflexivity.
  - reflexivity.
Defined.

(** The level [ERROR]. *)
Lemma create_level_lowered_witness :
  map Row.level
      (table (after (create sample_modules sample_logger true sample_resolve shout_error
                            from_bot) settled_world))
  = ["info"; "error"].
Proof.
  apply (create_level_lowered (H := lite_helpers) sample_modules sample_logger true
           sample_resolve shout_error from_bot settled_world "hi" "ERROR").
  - reflexivity.
  - discriminate.
  - simpl. lia.
  - reflexivity.
  - simpl. auto.
Defined.

(** The level [bogus]. *)
Lemma create_level_fallback_witness :
  map Row.level
      (table (after (create sample_modules sample_logger true sample_resolve
                            (Args.mk (VStr "hi") VUndefined (VStr "bogus") VUndefined)
                            from_bot) settled_world))
  = ["info"; "info"].
Proof.
  apply (create_level_fallback (H := lite_helpers) sample_modules sample_logger true
           sample_resolve (Args.mk (VStr "hi") VUndefined (VStr "bogus") VUndefined)
           from_bot settled_world "hi").
  - reflexivity.
  - discriminate.
  - simpl. lia.
  - intros l Hl. injection Hl as <-. simpl.
    intros [E | [E | [E | []]]]; discriminate E.
Defined.

(** A call from the bot's own file, with the empty string as redirect. *)
Lemma create_default_identity_witness :
  Notification.moduleId (notification sample_modules sample_resolve shout_error from_bot)
  = "botpress" /\
  Notification.name (notification sample_modules sample_resolve shout_error from_bot)
  = "botpress" /\
  Notification.icon (notification sample_modules sample_resolve shout_error from_bot)
  = "view_module" /\
  Notification.url (notification sample_modules sample_resolve shout_error from_bot)
  = VStr "".
Proof.
  apply (create_default_identity sample_modules sample_resolve shout_error from_bot).
  intros m _. vm_compute. discriminate.
Defined.

(** A call from the file of the module [botpress-hello]. *)
Lemma create_module_identity_witness :
  Notification.moduleId (notification sample_modules sample_resolve say_hi from_module)
  = "botpress-hello" /\
  Notification.name (notification sample_modules sample_resolve say_hi from_module)
  = "Hello" /\
  Notification.icon (notification sample_modules sample_resolve say_hi from_module)
  = "chat".
Proof.
  apply (create_module_identity sample_modules sample_resolve say_hi from_module
           [] [] hello_module).
  - reflexivity.
  - reflexivity.
  - intros m [].
Defined.

(** The waiting notification through a [create], a [markAllAsRead] and an
    [archiveAll]. *)
Lemma rows_keep_their_content_witness :
  List.length (table waiting_world)
  <= List.length
       (table
          (after (run sample_modules sample_logger true sample_resolve ArchiveAll)
             (after (run sample_modules sample_logger true sample_resolve MarkAllAsRead)
                (after (run sample_modules sample_logger true sample_resolve
                          (Create say_hi from_bot))
                       waiting_world)))) /\
  exists r',
    nth_error
      (table
         (after (run sample_modules sample_logger true sample_resolve ArchiveAll)
            (after (run sample_modules sample_logger true sample_resolve MarkAllAsRead)
               (after (run sample_modules sample_logger true sample_resolve
                         (Create say_hi from_bot))
                      waiting_world))))
      1
    = Some r' /\ same_notification waiting_row r'.
Proof.
  apply (rows_keep_their_content (H := lite_helpers) sample_modules sample_logger true
           sample_resolve waiting_world _ 1 waiting_row).
  - apply reaches_step, reaches_step, reaches_step, reaches_refl.
  - reflexivity.
Defined.

(** The settled notification through a [create] and a [markAllAsRead]. *)
Lemma archived_stays_out_of_inbox_witness :
  exists r',
    nth_error
      (table
         (after (run sample_modules sample_logger true sample_resolve MarkAllAsRead)
            (after (run sample_modules sample_logger true sample_resolve
                      (Create say_hi from_bot))
                   waiting_world)))
      0
    = Some r' /\
    Row.id r' = "n-1" /\
    ~ In r'
        (inbox_rows
           (table
              (after (run sample_modules sample_logger true sample_resolve MarkAllAsRead)
                 (after (run sample_modules sample_logger true sample_resolve
                           (Create say_hi from_bot))
                        waiting_world)))).
Proof.
  apply (archived_stays_out_of_inbox (H := lite_helpers) sample_modules sample_logger true
           sample_resolve waiting_world _ 0 settled_row).
  - apply reaches_step, reaches_step, reaches_refl.
  - reflexivity.
  - reflexivity.
Defined.

(** The id [90ab] is new to the world with the ids [n-1] and [n-2]. *)
Lemma ids_stay_distinct_witness :
  NoDup (map Row.id
           (table (after (create sample_modules sample_logger true sample_resolve say_hi
                                 from_bot) waiting_world))).
Proof.
  apply (ids_stay_distinct (H := lite_helpers) sample_modules sample_logger true
           sample_resolve say_hi from_bot "n-1" waiting_world).
  - simpl. constructor; [intros [E | []]; discriminate E |].
    constructor; [intros [] | constructor].
  - simpl. intros [E | [E | []]]; discriminate E.
Defined.

(** The message [""]. *)
Lemma create_rejects_empty_message_witness :
  create sample_modules sample_logger true sample_resolve
         (Args.mk (VStr "") VUndefined VUndefined VUndefined) from_bot waiting_world
  = (Throw (Error "'message' is mandatory and should be a string"), waiting_world).
Proof.
  exact (create_rejects_empty_message (H := lite_helpers) sample_modules sample_logger true
           sample_resolve (Args.mk (VStr "") VUndefined VUndefined VUndefined) from_bot
           waiting_world eq_refl).
Defined.

(** A service built without logger and without event bus. *)
Lemma create_without_logger_witness :
  create sample_modules None false sample_resolve shout_error from_bot empty_world
  = (Ok tt,
     mkWorld (H := lite_helpers)
       [Row.mk (H := lite_helpers) "90ab" "hi" "error" "botpress" "view_module" "botpress"
               (VStr "") 2000 0%Z 0%Z]
       [] []).
Proof.
  exact (create_without_logger (H := lite_helpers) sample_modules None false sample_resolve
           shout_error from_bot empty_world "hi" eq_refl (fun E => match E with end)
           (le_n 3) eq_refl).
Defined.

(** The call whose stack was cut to two frames. *)
Lemma create_needs_the_callers_frame_witness :
  create sample_modules sample_logger true sample_resolve say_hi from_short_stack
         waiting_world
  = (Throw (TypeError "Cannot read property 'getFileName' of undefined"), waiting_world).
Proof.
  exact (create_needs_the_callers_frame (H := lite_helpers) sample_modules sample_logger
           true sample_resolve say_hi from_short_stack waiting_world "hi"
           eq_refl (fun E => match E with end) (le_n 3)).
Defined.

(** Two notifications created on the empty table, the first one archived. *)
Lemma queries_partition_table_witness :
  List.length
    (Knex.where_ (fun r => dbbool_eqb (Row.archived r) bool_false)
       (table
          (after (run sample_modules sample_logger true sample_resolve (Archive "7f1c"))
             (after (run sample_modules sample_logger true sample_resolve
                       (Create say_hi from_bot))
                (after (run sample_modules sample_logger true sample_resolve
                          (Create say_hi from_module))
                       empty_world)))))
  + List.length
      (Knex.where_ (fun r => dbbool_eqb (Row.archived r) bool_true)
         (table
            (after (run sample_modules sample_logger true sample_resolve (Archive "7f1c"))
               (after (run sample_modules sample_logger true sample_resolve
                         (Create say_hi from_bot))
                  (after (run sample_modules sample_logger true sample_resolve
                            (Create say_hi from_module))
                         empty_world)))))
  = 2.
Proof.
  apply (queries_partition_table (H := lite_helpers) sample_modules sample_logger true
           sample_resolve empty_world).
  - reflexivity.
  - apply reaches_step, reaches_step, reaches_step, reaches_refl.
Defined.
